(** * Link resolution and page output of the documentation generator

    A shallow embedding of [nav/page.go]: the package link resolver
    ([convertPackageLinkToUrl] and its helpers), the whole-body link
    rewriter ([convertMarkdownLinksToUrls]), the extension rewriter
    ([replaceMdFileExtensionWithHtmlFileExtension]) and the two page
    methods that call them.

    Go strings are byte sequences; they are modelled as [list ascii].
    The regular expressions of the file are kept as regular expressions
    and run by a backtracking matcher with capture groups, which is the
    documented semantics of Go's [regexp] package (leftmost match, and
    among those the one a backtracking search finds first).

    The matcher works on bytes where Go's works on runes.  For the three
    patterns of the file the answers are the same: every character they
    name is an ASCII character, which is a rune of its own in any byte
    sequence, and [.] takes any rune but the line feed, so a run of [.]
    is a run of bytes without a line feed that ends where a rune ends.

    The functions of [strings], [regexp] and [path/filepath] that the file
    calls are modelled after their documentation.  The collaborators of
    the page methods (file input and output, the Markdown renderer, the
    template engine, the navigation tree) are variables of a section. *)

From Stdlib Require Import List Arith Bool Lia ZArith Relations.
From Stdlib Require Import Ascii.
From Stdlib Require String.
Import ListNotations String.StringSyntax.

Delimit Scope string_scope with string.
Bind Scope string_scope with String.string.

(** ** Strings *)

Definition gostring := list ascii.

(** A string literal of the source. *)
Definition str (s : String.string) : gostring :=
  String.list_ascii_of_string s.

Definition ascii_eqb (a b : ascii) : bool := Ascii.eqb a b.
Arguments ascii_eqb : simpl never.

Fixpoint gostring_eqb (s t : gostring) : bool :=
  match s, t with
  | [], [] => true
  | a :: s', b :: t' => ascii_eqb a b && gostring_eqb s' t'
  | _, _ => false
  end.

(** [strings.HasPrefix(s, prefix)] *)
Fixpoint strings_HasPrefix (s prefix : gostring) {struct prefix} : bool :=
  match prefix with
  | [] => true
  | b :: prefix' =>
      match s with
      | [] => false
      | a :: s' => ascii_eqb a b && strings_HasPrefix s' prefix'
      end
  end.

(** [strings.Contains(s, substr)] *)
Fixpoint strings_Contains (s substr : gostring) : bool :=
  strings_HasPrefix s substr ||
  match s with
  | [] => false
  | _ :: s' => strings_Contains s' substr
  end.

(** The scan of [strings.Replace] for a non-empty [old]: occurrences are
    found from the left and do not overlap; [skip] counts the bytes of the
    occurrence just replaced that are still to be passed over, [limit] the
    replacements still allowed ([None]: no limit). *)
Fixpoint replace_scan (old new : gostring) (limit : option nat)
         (skip : nat) (s : gostring) : gostring :=
  match s with
  | [] => []
  | a :: s' =>
      match skip with
      | S skip' => replace_scan old new limit skip' s'
      | O =>
          match limit with
          | Some O => s
          | _ =>
              if strings_HasPrefix s old
              then new ++ replace_scan old new (option_map pred limit)
                                       (length old - 1) s'
              else a :: replace_scan old new limit 0 s'
          end
      end
  end.

(** With an empty [old], [strings.Replace] inserts [new] in front of every
    character and at the end, up to the limit.  (No call of the source has
    an empty [old]; the case is here for completeness, over bytes.) *)
Fixpoint replace_empty (new : gostring) (limit : option nat)
         (s : gostring) : gostring :=
  match limit with
  | Some O => s
  | _ =>
      match s with
      | [] => new
      | a :: s' => new ++ a :: replace_empty new (option_map pred limit) s'
      end
  end.

(** [strings.Replace(s, old, new, n)]; a negative [n] lifts the limit. *)
Definition strings_Replace (s old new : gostring) (n : Z) : gostring :=
  if gostring_eqb old new || (n =? 0)%Z then s
  else
    let limit := if (n <? 0)%Z then None else Some (Z.to_nat n) in
    match old with
    | [] => replace_empty new limit s
    | _ :: _ => replace_scan old new limit 0 s
    end.

(** [s[b:e]] *)
Definition substring (s : gostring) (b e : nat) : gostring :=
  firstn (e - b) (skipn b s).

(** ** Errors and results *)

(** The error type the file declares, and the errors that come from the
    collaborators. *)
Inductive error : Type :=
| WrongNumberOfCaptureGroupsReturnedFromPageRegEx
    (inputPath regExName regEx : gostring)
| CollaboratorError (msg : gostring).

(** [errors.WithStackTrace] keeps the error and records a stack trace; the
    trace is not modelled. *)
Definition WithStackTrace (e : error) : error := e.

(** What a call of a Go function of type [(A, error)] does: it returns a
    value together with an error that may be nil, or it panics (an index out
    of range). *)
Inductive outcome (A : Type) : Type :=
| Returns (v : A) (err : option error)
| Panics.
Arguments Returns {A} v err.
Arguments Panics {A}.

(** [v, err := call; if err != nil { return onerr, WithStackTrace(err) }] *)
Definition try_call {A B : Type} (call : outcome A) (onerr : B)
           (k : A -> outcome B) : outcome B :=
  match call with
  | Panics => Panics
  | Returns _ (Some e) => Returns onerr (Some (WithStackTrace e))
  | Returns v None => k v
  end.

Notation "'call' x <- c 'onerr' d ;; k" :=
  (try_call c d (fun x => k))
  (at level 61, x name, c at next level, d at next level,
   right associativity).

(** ** Regular expressions *)

Inductive regex : Type :=
| Empty
| Class (p : ascii -> bool)
| Bol
| Eol
| Seq (r1 r2 : regex)
| Alt (r1 r2 : regex)
| Star (r : regex)
| Group (i : nat) (r : regex).

Definition Chr (a : ascii) : regex := Class (ascii_eqb a).
Definition Plus (r : regex) : regex := Seq r (Star r).
Definition Opt (r : regex) : regex := Alt r Empty.

Fixpoint Lit (s : gostring) : regex :=
  match s with
  | [] => Empty
  | a :: s' => Seq (Chr a) (Lit s')
  end.

(** Number of capture groups. *)
Fixpoint NumSubexp (r : regex) : nat :=
  match r with
  | Seq r1 r2 | Alt r1 r2 => NumSubexp r1 + NumSubexp r2
  | Star r1 => NumSubexp r1
  | Group _ r1 => S (NumSubexp r1)
  | _ => 0
  end.

(** The capture registers: entry [i] holds the bounds of group [i], entry 0
    those of the whole match. *)
Definition caps := list (option (nat * nat)).

Fixpoint set_cap (i : nat) (v : nat * nat) (c : caps) : caps :=
  match c with
  | [] => []
  | x :: c' =>
      match i with
      | O => Some v :: c'
      | S i' => x :: set_cap i' v c'
      end
  end.

(** A continuation receives the position reached, the input left and the
    registers. *)
Definition cont := nat -> gostring -> caps -> option caps.

(** Greedy iteration: try one more round of [body] first, leave the loop
    when that fails.  A round that consumes nothing is abandoned. *)
Fixpoint star_loop (body : cont -> cont) (k : cont) (n : nat) : cont :=
  fun pos s c =>
    match n with
    | O => k pos s c
    | S n' =>
        match body (fun pos' s' c' =>
                      if pos <? pos' then star_loop body k n' pos' s' c'
                      else None) pos s c with
        | Some x => Some x
        | None => k pos s c
        end
    end.

(** The backtracking matcher, in continuation-passing style.  [pos] is the
    offset of [s] in the text searched: [^] holds at offset 0 only and [$]
    at the end of the text only (no multi-line flag is set in the source). *)
Fixpoint rmatch (r : regex) (k : cont) : cont :=
  fun pos s c =>
    match r with
    | Empty => k pos s c
    | Class p =>
        match s with
        | a :: s' => if p a then k (S pos) s' c else None
        | [] => None
        end
    | Bol => if pos =? 0 then k pos s c else None
    | Eol => match s with [] => k pos s c | _ :: _ => None end
    | Seq r1 r2 => rmatch r1 (rmatch r2 k) pos s c
    | Alt r1 r2 =>
        match rmatch r1 k pos s c with
        | Some x => Some x
        | None => rmatch r2 k pos s c
        end
    | Star r1 => star_loop (rmatch r1) k (length s) pos s c
    | Group i r1 =>
        rmatch r1 (fun pos' s' c' => k pos' s' (set_cap i (pos, pos') c'))
               pos s c
    end.

Definition accept : cont := fun _ _ c => Some c.

(** One attempt at offset [pos]. *)
Definition match_at (r : regex) (pos : nat) (s : gostring) : option caps :=
  rmatch (Group 0 r) accept pos s (repeat None (S (NumSubexp r))).

(** The leftmost match at or after offset [pos]. *)
Fixpoint search (r : regex) (pos : nat) (s : gostring) : option caps :=
  match match_at r pos s with
  | Some c => Some c
  | None =>
      match s with
      | [] => None
      | _ :: s' => search r (S pos) s'
      end
  end.

(** [regexp.MatchString] *)
Definition MatchString (r : regex) (s : gostring) : bool :=
  match search r 0 s with Some _ => true | None => false end.

Definition whole (c : caps) : nat * nat :=
  match c with
  | Some be :: _ => be
  | _ => (0, 0)
  end.

(** The loop of [regexp.allMatches] with no limit on the number of matches:
    the search resumes at the end of the previous match, one character
    further after an empty match, and an empty match that touches the
    previous match is dropped.  Every round moves forward in the text, so
    a fuel above the length of the text is never used up
    ([allMatches_fuel]). *)
Fixpoint allMatches (fuel : nat) (r : regex) (pos : nat) (s : gostring)
         (prevMatchEnd : option nat) : list caps :=
  match fuel with
  | O => []
  | S fuel' =>
      match search r pos s with
      | None => []
      | Some c =>
          let (b, e) := whole c in
          if e =? pos then
            let accepted :=
              match prevMatchEnd with
              | Some p => negb (b =? p)
              | None => true
              end in
            let rest :=
              match s with
              | [] => []
              | _ :: s' => allMatches fuel' r (S pos) s' (Some e)
              end in
            if accepted then c :: rest else rest
          else c :: allMatches fuel' r e (skipn (e - pos) s) (Some e)
      end
  end.

(** The strings of one match: the text of each group, empty for a group
    that took no part. *)
Definition submatch_strings (s : gostring) (c : caps) : list gostring :=
  map (fun x => match x with
                | Some (b, e) => substring s b e
                | None => []
                end) c.

(** [regexp.FindAllStringSubmatch(s, -1)] *)
Definition FindAllStringSubmatch (r : regex) (s : gostring)
  : list (list gostring) :=
  map (submatch_strings s) (allMatches (S (S (length s))) r 0 s None).

(** ** Character classes and the patterns of the source *)

Definition in_range (lo hi : nat) (a : ascii) : bool :=
  (lo <=? nat_of_ascii a) && (nat_of_ascii a <=? hi).

Definition is_digit : ascii -> bool := in_range 48 57.
Definition is_upper : ascii -> bool := in_range 65 90.
Definition is_lower : ascii -> bool := in_range 97 122.

(** [\w] *)
Definition is_word (a : ascii) : bool :=
  is_digit a || is_upper a || is_lower a || ascii_eqb a "_".

(** [[\w -]] *)
Definition is_pkg_char (a : ascii) : bool :=
  is_word a || ascii_eqb a " " || ascii_eqb a "-".

(** [[A-Za-z0-9_/.-]] *)
Definition is_path_char (a : ascii) : bool :=
  is_upper a || is_lower a || is_digit a || ascii_eqb a "_" ||
  ascii_eqb a "/" || ascii_eqb a "." || ascii_eqb a "-".

(** [[A-Za-z0-9_.-]] *)
Definition is_name_char (a : ascii) : bool :=
  is_upper a || is_lower a || is_digit a || ascii_eqb a "_" ||
  ascii_eqb a "." || ascii_eqb a "-".

(** [.]: any character but the line feed (the [s] flag is not set). *)
Definition not_newline (a : ascii) : bool := negb (ascii_eqb a "010").

Definition Dot : regex := Class not_newline.

Definition FILE_PATHS_REGEX : gostring :=
  str "(?:http:/|https:/)?(/[A-Za-z0-9_/.-]+)|([A-Za-z0-9_/.-]+/[A-Za-z0-9_.-]*)".
Definition PACKAGE_GITHUB_REPO_URL_PREFIX : gostring :=
  str "https://github.com/gruntwork-io/<package-name>/tree/master".
Definition PACKAGE_FILE_REGEX : gostring := str "^packages/([\w -]+)(/.*)$".
Definition PACKAGE_FILE_REGEX_NUM_CAPTURE_GROUPS : nat := 2.
Definition MARKDOWN_FILE_PATH_REGEX : gostring := str "^.*/(.*)\.md$".
Definition MARKDOWN_FILE_PATH_REGEX_NUM_CAPTURE_GROUPS : nat := 1.
Definition HTML_TEMPLATE_REL_PATH : gostring := str "_html/doc_template.html".

(** [regexp.MustCompile(FILE_PATHS_REGEX)]: the alternation binds last, so
    the optional scheme belongs to the first branch only. *)
Definition FILE_PATHS_REGEX_compiled : regex :=
  Alt (Seq (Opt (Alt (Lit (str "http:/")) (Lit (str "https:/"))))
           (Group 1 (Seq (Chr "/") (Plus (Class is_path_char)))))
      (Group 2 (Seq (Plus (Class is_path_char))
                    (Seq (Chr "/") (Star (Class is_name_char))))).

(** [regexp.MustCompile(PACKAGE_FILE_REGEX)] *)
Definition PACKAGE_FILE_REGEX_compiled : regex :=
  Seq Bol
      (Seq (Lit (str "packages/"))
           (Seq (Group 1 (Plus (Class is_pkg_char)))
                (Seq (Group 2 (Seq (Chr "/") (Star Dot))) Eol))).

(** [regexp.MustCompile(MARKDOWN_FILE_PATH_REGEX)] *)
Definition MARKDOWN_FILE_PATH_REGEX_compiled : regex :=
  Seq Bol
      (Seq (Star Dot)
           (Seq (Chr "/")
                (Seq (Group 1 (Star Dot)) (Seq (Lit (str ".md")) Eol)))).

(** ** Paths ([path/filepath], with [/] as the separator) *)

(** The pieces of [s] between the occurrences of [sep]; never empty. *)
Fixpoint split_on (sep : ascii) (s : gostring) : list gostring :=
  match s with
  | [] => [[]]
  | a :: s' =>
      if ascii_eqb a sep then [] :: split_on sep s'
      else
        match split_on sep s' with
        | [] => [[a]]
        | p :: ps => (a :: p) :: ps
        end
  end.

(** [strings.Join(elems, sep)] *)
Fixpoint strings_Join (elems : list gostring) (sep : gostring) : gostring :=
  match elems with
  | [] => []
  | [e] => e
  | e :: es => e ++ sep ++ strings_Join es sep
  end.

(** One path element of [filepath.Clean].  [out] holds the elements kept so
    far, the last one first; [dotdot] is the number of leading [..]
    elements, which a later [..] cannot remove. *)
Definition clean_step (rooted : bool) (st : list gostring * nat)
           (e : gostring) : list gostring * nat :=
  let (out, dotdot) := st in
  if gostring_eqb e [] then st
  else if gostring_eqb e (str ".") then st
  else if gostring_eqb e (str "..") then
    if dotdot <? length out then (tl out, dotdot)
    else if negb rooted then (e :: out, S (length out))
    else st
  else (e :: out, dotdot).

(** [filepath.Clean] *)
Definition filepath_Clean (path : gostring) : gostring :=
  match path with
  | [] => str "."
  | _ :: _ =>
      let rooted := strings_HasPrefix path (str "/") in
      let out := fst (fold_left (clean_step rooted) (split_on "/" path)
                                ([], 0)) in
      let body := strings_Join (rev out) (str "/") in
      if rooted then str "/" ++ body
      else match out with [] => str "." | _ :: _ => body end
  end.

(** [filepath.Join]: the elements from the first non-empty one on are
    joined by the separator and the result is cleaned. *)
Fixpoint filepath_Join (elem : list gostring) : gostring :=
  match elem with
  | [] => []
  | [] :: elem' => filepath_Join elem'
  | _ :: _ => filepath_Clean (strings_Join elem (str "/"))
  end.

(** [filepath.Base] *)
Definition filepath_Base (path : gostring) : gostring :=
  match path with
  | [] => str "."
  | _ :: _ =>
      match filter (fun e => negb (gostring_eqb e [])) (split_on "/" path) with
      | [] => str "/"
      | e :: es => last es e
      end
  end.

(** ** The link resolver *)

(** Return true if the given inputPath is part of a Gruntwork Package *)
Definition isPackageInputPath (inputPath : gostring) : bool :=
  MatchString PACKAGE_FILE_REGEX_compiled inputPath.

Definition wrong_groups_PACKAGE (inputPath : gostring) : error :=
  WrongNumberOfCaptureGroupsReturnedFromPageRegEx
    inputPath (str "PACKAGE_FILE_REGEX") PACKAGE_FILE_REGEX.

(** [submatches[0][i]], behind the guard on the two lengths that the three
    extracting functions share. *)
Definition first_submatch (submatches : list (list gostring))
           (groups i : nat) (err : error) : outcome gostring :=
  match submatches with
  | [] => Returns [] (Some (WithStackTrace err))
  | sm :: _ =>
      if negb (length sm =? groups + 1)
      then Returns [] (Some (WithStackTrace err))
      else
        match nth_error sm i with
        | Some subpath => Returns subpath None
        | None => Panics
        end
  end.

(** Extract the Package name from the given inputPath *)
Definition getPackageName (inputPath : gostring) : outcome gostring :=
  let submatches := FindAllStringSubmatch PACKAGE_FILE_REGEX_compiled inputPath in
  first_submatch submatches PACKAGE_FILE_REGEX_NUM_CAPTURE_GROUPS 1
                 (wrong_groups_PACKAGE inputPath).

(** Given an inputPath like packages/package-vpc/modules/vpc-app, extract
    the path relative to the package root (i.e. /modules/vpc-app) *)
Definition getPathRelativeToPackageRoot (inputPath : gostring)
  : outcome gostring :=
  let submatches := FindAllStringSubmatch PACKAGE_FILE_REGEX_compiled inputPath in
  first_submatch submatches PACKAGE_FILE_REGEX_NUM_CAPTURE_GROUPS 2
                 (wrong_groups_PACKAGE inputPath).

(** Convert a link that directs to another Package page to a fully qualified
    URL. For non-Package links, just return the original link *)
Definition convertPackageLinkToUrl (inputPath linkPath : gostring)
  : outcome gostring :=
  let url : gostring := [] in
  if isPackageInputPath inputPath then
    call packageName <- getPackageName inputPath onerr url ;;
    let urlPrefix :=
      strings_Replace PACKAGE_GITHUB_REPO_URL_PREFIX (str "<package-name>")
                      packageName 1 in
    let url :=
      if strings_HasPrefix linkPath (str "/") then urlPrefix ++ linkPath
      else url in
    call url <-
      (if strings_HasPrefix linkPath (str "./") then
         call relPath <- getPathRelativeToPackageRoot inputPath onerr url ;;
         Returns (urlPrefix ++ relPath) None
       else Returns url None) onerr url ;;
    call url <-
      (if strings_HasPrefix linkPath (str "../") then
         call relPath <- getPathRelativeToPackageRoot inputPath onerr url ;;
         let relPath := filepath_Join [relPath; str "../"; linkPath] in
         Returns (urlPrefix ++ relPath) None
       else Returns url None) onerr url ;;
    Returns url None
  else
    Returns linkPath None.

(** ** Rewriting the links of a body *)

(** Given a body of text find all instances of link paths (e.g. /foo or
    ../bar) *)
Definition getAllLinkPaths (body : gostring) : list gostring :=
  let submatches := FindAllStringSubmatch FILE_PATHS_REGEX_compiled body in
  filter (fun relPath =>
            negb (strings_Contains relPath (str "http://")) &&
            negb (strings_Contains relPath (str "https://")))
         (map (fun submatch => nth 0 submatch []) submatches).

(** [fmt.Sprintf("(%s)", s)] and [fmt.Sprintf(" %s ", s)] *)
Definition with_parens (s : gostring) : gostring := str "(" ++ s ++ str ")".
Definition with_spaces (s : gostring) : gostring := str " " ++ s ++ str " ".

(** The loop of [convertMarkdownLinksToUrls] over the link paths left. *)
Fixpoint convert_links (inputPath : gostring) (linkPaths : list gostring)
         (newBody : gostring) : outcome gostring :=
  match linkPaths with
  | [] => Returns newBody None
  | linkPath :: linkPaths' =>
      call url <- convertPackageLinkToUrl inputPath linkPath onerr newBody ;;
      let newBody :=
        strings_Replace newBody (with_parens linkPath) (with_parens url) (-1) in
      let newBody :=
        strings_Replace newBody (with_spaces linkPath) (with_spaces url) (-1) in
      convert_links inputPath linkPaths' newBody
  end.

(** Given a doc file with the given body at the given inputPath, convert all
    paths in the body (e.g. "/foo" or "../bar") to fully qualified URLs. *)
Definition convertMarkdownLinksToUrls (inputPath body : gostring)
  : outcome gostring :=
  convert_links inputPath (getAllLinkPaths body) body.

(** ** The extension of the output file *)

Definition wrong_groups_MARKDOWN (path : gostring) : error :=
  WrongNumberOfCaptureGroupsReturnedFromPageRegEx
    path (str "MARKDOWN_FILE_PATH_REGEX") MARKDOWN_FILE_PATH_REGEX.

(** Given a path like /foo/bar.md, return /foo/bar.html *)
Definition replaceMdFileExtensionWithHtmlFileExtension (path : gostring)
  : outcome gostring :=
  let submatches := FindAllStringSubmatch MARKDOWN_FILE_PATH_REGEX_compiled path in
  call filename <-
    first_submatch submatches MARKDOWN_FILE_PATH_REGEX_NUM_CAPTURE_GROUPS 1
                   (wrong_groups_MARKDOWN path) onerr [] ;;
  let filenameDotMd := filename ++ str "." ++ str "md" in
  let filenameDotHtml := filename ++ str "." ++ str "html" in
  Returns (strings_Replace path filenameDotMd filenameDotHtml (-1)) None.

(** ** Pages *)

(** Modelled from the spec: the [File] record, declared in a file of the
    package that is not part of the sources at hand: "{InputPath: path
    relative to source root, FullInputPath: absolute filesystem path,
    OutputPath: path relative to output root}". *)
Record File : Type := {
  InputPath : gostring;
  FullInputPath : gostring;
  OutputPath : gostring
}.

(** What a page method does to the world, in the order it does it. *)
Inductive event : Type :=
| Printed (line : gostring)
| WriteFileCalled (contents path : gostring).

Section Pages.

(** The navigation tree is declared elsewhere in the package. *)
Variable Folder : Type.

(** A Page represents a page of documentation, usually formatted as a
    markdown file. *)
Record Page : Type := {
  file : File;
  Title : gostring;
  BodyMarkdown : gostring;
  BodyHtml : gostring;
  GithubUrl : gostring;
  ParentFolder : option Folder
}.

(** The collaborators: file input and output, the Markdown renderer, the
    HTML template engine, the renderer of the navigation tree and
    [strings.Title]. *)
Variable file_ReadFile : gostring -> outcome gostring.
Variable file_WriteFile : gostring -> gostring -> option error.
Variable github_flavored_markdown_Markdown : gostring -> gostring.
Variable Template : Type.
Variable template_Parse : gostring -> gostring -> outcome Template.
Variable template_Execute :
  Template -> gostring -> gostring -> gostring -> gostring.
Variable GetAsNavTreeHtml : Folder -> Page -> gostring.
Variable strings_Title : gostring -> gostring.

(** Return a NewPage *)
Definition NewPage (f : File) : Page :=
  {| file := f; Title := []; BodyMarkdown := []; BodyHtml := [];
     GithubUrl := []; ParentFolder := None |}.

Definition set_Title (p : Page) (v : gostring) : Page :=
  {| file := file p; Title := v; BodyMarkdown := BodyMarkdown p;
     BodyHtml := BodyHtml p; GithubUrl := GithubUrl p;
     ParentFolder := ParentFolder p |}.

Definition set_BodyMarkdown (p : Page) (v : gostring) : Page :=
  {| file := file p; Title := Title p; BodyMarkdown := v;
     BodyHtml := BodyHtml p; GithubUrl := GithubUrl p;
     ParentFolder := ParentFolder p |}.

Definition set_BodyHtml (p : Page) (v : gostring) : Page :=
  {| file := file p; Title := Title p; BodyMarkdown := BodyMarkdown p;
     BodyHtml := v; GithubUrl := GithubUrl p;
     ParentFolder := ParentFolder p |}.

Definition set_GithubUrl (p : Page) (v : gostring) : Page :=
  {| file := file p; Title := Title p; BodyMarkdown := BodyMarkdown p;
     BodyHtml := BodyHtml p; GithubUrl := v;
     ParentFolder := ParentFolder p |}.

(** Get the Page's title from the page's output filename. *)
Definition getTitle (p : Page) : outcome gostring :=
  let fileNameFull := filepath_Base (OutputPath (file p)) in
  let fileNameComponents := split_on "." fileNameFull in
  match nth_error fileNameComponents 0 with
  | Some title => Returns (strings_Title title) None
  | None => Panics
  end.

(** Get the Page's markdown body, sanitized for public HTML output (i.e.
    convert inline links to fully qualified URLs) *)
Definition getSanitizedMarkdownBody (p : Page) : outcome gostring :=
  match file_ReadFile (FullInputPath (file p)) with
  | Panics => Panics
  | Returns body (Some err) => Returns body (Some (WithStackTrace err))
  | Returns body None =>
      match convertMarkdownLinksToUrls (InputPath (file p)) body with
      | Panics => Panics
      | Returns body (Some err) => Returns body (Some (WithStackTrace err))
      | Returns body None => Returns body None
      end
  end.

(** Given a markdown body return an HTML body *)
Definition getHtmlFromMarkdown (markdown : gostring) : gostring :=
  github_flavored_markdown_Markdown markdown.

(** Populate all the remaining properties of this Page instance.  The
    method works on the page in place: the value returned here is the page
    as the call leaves it, next to the error of the call. *)
Definition PopulateAllProperties (p : Page) : outcome Page :=
  match getTitle p with
  | Panics => Panics
  | Returns title _ =>
      let p := set_Title p title in
      match getSanitizedMarkdownBody p with
      | Panics => Panics
      | Returns body (Some err) =>
          Returns (set_BodyMarkdown p body) (Some (WithStackTrace err))
      | Returns body None =>
          let p := set_BodyMarkdown p body in
          let p := set_BodyHtml p (getHtmlFromMarkdown (BodyMarkdown p)) in
          match convertPackageLinkToUrl (InputPath (file p)) (str "./") with
          | Panics => Panics
          | Returns url (Some err) =>
              Returns (set_GithubUrl p url) (Some (WithStackTrace err))
          | Returns url None => Returns (set_GithubUrl p url) None
          end
      end
  end.

(** Return the full HTML rendering of this page *)
Definition getFullHtml (pageBodyHtml navTreeHtml pageTitle : gostring)
  : outcome gostring :=
  let templateOutput : gostring := [] in
  let htmlTemplatePath := filepath_Join [HTML_TEMPLATE_REL_PATH] in
  call htmlTemplateBody <- file_ReadFile htmlTemplatePath
    onerr templateOutput ;;
  call htmlTemplate <- template_Parse pageTitle htmlTemplateBody
    onerr templateOutput ;;
  Returns (template_Execute htmlTemplate pageTitle pageBodyHtml navTreeHtml)
          None.

(** Output the full HTML body of this page.  The value returned is the
    list of what the call did, next to its error. *)
Definition WriteFullPageHtmlToOutputPath (p : Page) (rootFolder : Folder)
           (rootOutputPath : gostring) : outcome (list event) :=
  let bodyHtml := BodyHtml p in
  let navTreeHtml := GetAsNavTreeHtml rootFolder p in
  call fullHtml <- getFullHtml bodyHtml navTreeHtml (Title p) onerr [] ;;
  let absOutputPath := filepath_Join [rootOutputPath; OutputPath (file p)] in
  call absOutputPathDotHtml <-
    replaceMdFileExtensionWithHtmlFileExtension absOutputPath onerr [] ;;
  let printed :=
    Printed (str "Outputting " ++ InputPath (file p) ++ str " to " ++
             absOutputPathDotHtml ++ ["010"%char]) in
  match file_WriteFile fullHtml absOutputPathDotHtml with
  | Some err =>
      Returns [printed; WriteFileCalled fullHtml absOutputPathDotHtml]
              (Some (WithStackTrace err))
  | None =>
      Returns [printed; WriteFileCalled fullHtml absOutputPathDotHtml] None
  end.

End Pages.

Arguments file {Folder} p.
Arguments Title {Folder} p.
Arguments BodyMarkdown {Folder} p.
Arguments BodyHtml {Folder} p.
Arguments GithubUrl {Folder} p.
Arguments ParentFolder {Folder} p.
Arguments set_Title {Folder} p v.
Arguments set_BodyMarkdown {Folder} p v.
Arguments set_BodyHtml {Folder} p v.
Arguments set_GithubUrl {Folder} p v.
Arguments getTitle {Folder} strings_Title p.
Arguments getSanitizedMarkdownBody {Folder} file_ReadFile p.
Arguments PopulateAllProperties {Folder} file_ReadFile
  github_flavored_markdown_Markdown strings_Title p.
Arguments getFullHtml file_ReadFile {Template} template_Parse
  template_Execute pageBodyHtml navTreeHtml pageTitle.
Arguments WriteFullPageHtmlToOutputPath {Folder} file_ReadFile file_WriteFile
  {Template} template_Parse template_Execute GetAsNavTreeHtml p rootFolder
  rootOutputPath.

(** ** What a pattern matches, stated without the matcher *)

(** Iteration of a language: a sequence of pieces, each in [L] at the offset
    where it starts. *)
Inductive star_lang (L : nat -> gostring -> gostring -> Prop)
  : nat -> gostring -> gostring -> Prop :=
| star_lang_nil : forall pos rest, star_lang L pos [] rest
| star_lang_cons : forall pos w1 w2 rest,
    L pos w1 (w2 ++ rest) ->
    star_lang L (pos + length w1) w2 rest ->
    star_lang L pos (w1 ++ w2) rest.

(** [lang r pos w rest]: the pattern [r] can match the word [w] found at
    offset [pos] of the text and followed there by [rest]. *)
Fixpoint lang (r : regex) (pos : nat) (w rest : gostring) : Prop :=
  match r with
  | Empty => w = []
  | Class p => exists a, w = [a] /\ p a = true
  | Bol => w = [] /\ pos = 0
  | Eol => w = [] /\ rest = []
  | Seq r1 r2 =>
      exists w1 w2, w = w1 ++ w2 /\ lang r1 pos w1 (w2 ++ rest) /\
                    lang r2 (pos + length w1) w2 rest
  | Alt r1 r2 => lang r1 pos w rest \/ lang r2 pos w rest
  | Star r1 => star_lang (lang r1) pos w rest
  | Group _ r1 => lang r1 pos w rest
  end.

(** [inputPath] is [packages/<pkg>/<tail>]: a non-empty package name over
    [[\w -]], and the rest of one line. *)
Definition package_path (pkg tail inputPath : gostring) : Prop :=
  inputPath = str "packages/" ++ pkg ++ str "/" ++ tail /\
  pkg <> [] /\
  forallb is_pkg_char pkg = true /\
  forallb not_newline tail = true.

(** [path] is [<dir>/<name>.md] on one line, [<name>] without a slash. *)
Definition md_path (dir name path : gostring) : Prop :=
  path = dir ++ str "/" ++ name ++ str ".md" /\
  forallb not_newline path = true /\
  forallb (fun a => negb (ascii_eqb a "/")) name = true.

(** The URL of the repository of a package. *)
Definition package_url (pkg : gostring) : gostring :=
  str "https://github.com/gruntwork-io/" ++ pkg ++ str "/tree/master".

(** One replacement that [convertMarkdownLinksToUrls] may do for the link
    path [linkPath] resolved to [url]: the link path between parentheses or
    between two spaces, the text around it untouched. *)
Inductive link_step (linkPath url : gostring) : gostring -> gostring -> Prop :=
| link_step_parens : forall l r,
    link_step linkPath url (l ++ with_parens linkPath ++ r)
              (l ++ with_parens url ++ r)
| link_step_spaces : forall l r,
    link_step linkPath url (l ++ with_spaces linkPath ++ r)
              (l ++ with_spaces url ++ r).

(** Such a replacement for one of the link paths of [linkPaths], resolved
    against [inputPath]. *)
Definition link_rewrite (inputPath : gostring) (linkPaths : list gostring)
           (body body' : gostring) : Prop :=
  exists linkPath url,
    In linkPath linkPaths /\
    convertPackageLinkToUrl inputPath linkPath = Returns url None /\
    link_step linkPath url body body'.

(** A sequence of such replacements. *)
Definition link_steps (inputPath : gostring) (linkPaths : list gostring)
  : gostring -> gostring -> Prop :=
  clos_refl_trans_1n gostring (link_rewrite inputPath linkPaths).

(** [x] occurs in [s]. *)
Definition occurs (x s : gostring) : Prop := exists l r, s = l ++ x ++ r.

(** A link that carries its scheme. *)
Definition is_fully_qualified (token : gostring) : bool :=
  strings_HasPrefix token (str "http://") ||
  strings_HasPrefix token (str "https://").

(** All the matches of the link pattern in a body, as
    [getAllLinkPaths] sees them before it filters them. *)
Definition link_tokens (body : gostring) : list gostring :=
  map (fun submatch => nth 0 submatch [])
      (FindAllStringSubmatch FILE_PATHS_REGEX_compiled body).

(** A continuation that keeps the number of capture registers. *)
Definition len_ok (L : nat) (k : cont) : Prop :=
  forall pos s c x, length c = L -> k pos s c = Some x -> length x = L.

(** Every answer of the matcher is a match in the sense of [lang]. *)
Definition sound_for (L : nat -> gostring -> gostring -> Prop)
           (body : cont -> cont) : Prop :=
  forall k pos s c x,
    body k pos s c = Some x ->
    exists w s' c', s = w ++ s' /\ L pos w s' /\ length c' = length c /\
                    k (pos + length w) s' c' = Some x.

(** The input stops the iteration of a class: it is over, or its first
    character is outside the class. *)
Definition stops (p : ascii -> bool) (s : gostring) : Prop :=
  match s with
  | [] => True
  | b :: _ => p b = false
  end.

(** No separator in a path element. *)
Definition no_slash (s : gostring) : Prop :=
  forallb (fun a => negb (ascii_eqb a "/")) s = true.

(** The markdown extensions of the classifier other than [md]. *)
Definition other_markdown_extensions : list gostring :=
  [str "markdown"; str "mdown"; str "mkdn"; str "mkd"].

(** Collaborators for the examples: a template that is always there, a
    [WriteFile] that succeeds, an empty navigation tree. *)
Definition example_ReadFile (path : gostring) : outcome gostring :=
  Returns (str "<html/>") None.
Definition example_WriteFile (contents path : gostring) : option error := None.
Definition example_Parse (name text : gostring) : outcome gostring :=
  Returns text None.
Definition example_Execute (tpl title body nav : gostring) : gostring :=
  tpl ++ title ++ body ++ nav.
Definition example_NavTree (root : unit) (p : Page unit) : gostring := [].

Definition example_page (outputPath : gostring) : Page unit :=
  NewPage unit {| InputPath := str "packages/module-vpc/modules/vpc-app/_docs/example.md";
                  FullInputPath := str "/src/packages/module-vpc/modules/vpc-app/_docs/example.md";
                  OutputPath := outputPath |}.

(** An element of a cleaned path: a name, that is neither empty nor [.]
    nor [..] and has no separator in it. *)
Definition is_path_element (e : gostring) : Prop :=
  e <> [] /\ e <> str "." /\ e <> str ".." /\ no_slash e.

(** A reader that finds no file. *)
Definition failing_ReadFile (path : gostring) : outcome gostring :=
  Returns [] (Some (CollaboratorError (str "no such file"))).

(** A page outside the packages. *)
Definition global_page : Page unit :=
  NewPage unit {| InputPath := str "global/help/support.md";
                  FullInputPath := str "/src/global/help/support.md";
                  OutputPath := str "help/support.md" |}.

(** [strings.Replace] of every occurrence, said without the scan: when
    [old] does not occur the text is kept; otherwise the first occurrence
    (no occurrence starts before it) is replaced and the rest of the text,
    behind that occurrence, is treated the same way. *)
Inductive replaced_all (old new : gostring) : gostring -> gostring -> Prop :=
| replaced_none : forall s, ~ occurs old s -> replaced_all old new s s
| replaced_first : forall u r r',
    (forall u1 u2, u = u1 ++ u2 -> u2 <> [] ->
                   strings_HasPrefix (u2 ++ old ++ r) old = false) ->
    replaced_all old new r r' ->
    replaced_all old new (u ++ old ++ r) (u ++ new ++ r').

(** The passes of [convertMarkdownLinksToUrls] over the link paths, in
    their order: for each one, every occurrence between parentheses is
    replaced, then every occurrence between two spaces. *)
Inductive link_passes (inputPath : gostring)
  : list gostring -> gostring -> gostring -> Prop :=
| link_passes_nil : forall body, link_passes inputPath [] body body
| link_passes_cons : forall linkPath linkPaths url body b1 b2 body',
    convertPackageLinkToUrl inputPath linkPath = Returns url None ->
    replaced_all (with_parens linkPath) (with_parens url) body b1 ->
    replaced_all (with_spaces linkPath) (with_spaces url) b1 b2 ->
    link_passes inputPath linkPaths b2 body' ->
    link_passes inputPath (linkPath :: linkPaths) body body'.

(** * Properties *)

(** ** The matcher *)

Lemma set_cap_length : forall i v c, length (set_cap i v c) = length c.
Proof.
  induction i as [|i IH]; intros v [|x c]; simpl; auto.
Qed.

Lemma star_loop_len : forall L (body : cont -> cont),
    (forall k, len_ok L k -> len_ok L (body k)) ->
    forall n k, len_ok L k -> len_ok L (star_loop body k n).
Proof.
  intros L body Hbody n.
  induction n as [|n IH]; intros k Hk pos s c x Hc; simpl.
  - apply Hk; exact Hc.
  - destruct (body _ pos s c) as [y|] eqn:E.
    + intros Hx; inversion Hx; subst y.
      refine (Hbody _ _ pos s c x Hc E).
      intros pos' s' c' x' Hc'.
      destruct (pos <? pos'); [apply IH; assumption | discriminate].
    + apply Hk; exact Hc.
Qed.

Lemma rmatch_len : forall L r k, len_ok L k -> len_ok L (rmatch r k).
Proof.
  intros L r.
  induction r as [|p| | |r1 IH1 r2 IH2|r1 IH1 r2 IH2|r1 IH1|i r1 IH1];
    intros k Hk pos s c x Hc; simpl.
  - apply Hk; exact Hc.
  - destruct s as [|a s']; [discriminate|].
    destruct (p a); [apply Hk; exact Hc | discriminate].
  - destruct (pos =? 0); [apply Hk; exact Hc | discriminate].
  - destruct s; [apply Hk; exact Hc | discriminate].
  - apply IH1; auto.
  - destruct (rmatch r1 k pos s c) as [y|] eqn:E.
    + intros Hx; inversion Hx; subst y. exact (IH1 k Hk pos s c x Hc E).
    + apply IH2; auto.
  - apply star_loop_len; auto.
  - apply IH1; auto.
    intros pos' s' c' x' Hc'. apply Hk. rewrite set_cap_length. exact Hc'.
Qed.

Lemma accept_len : forall L, len_ok L accept.
Proof. intros L pos s c x Hc Hx. injection Hx as <-. exact Hc. Qed.

Lemma match_at_length : forall r pos s c,
    match_at r pos s = Some c -> length c = S (NumSubexp r).
Proof.
  intros r pos s c H. unfold match_at in H.
  eapply rmatch_len; [apply accept_len | | exact H].
  apply repeat_length.
Qed.

Lemma search_length : forall r s pos c,
    search r pos s = Some c -> length c = S (NumSubexp r).
Proof.
  intros r s. induction s as [|a s IH]; intros pos c; simpl;
    destruct (match_at r pos _) as [y|] eqn:E; intros H;
    try (inversion H; subst y; eapply match_at_length; eassumption);
    try discriminate.
  eapply IH; eassumption.
Qed.

Lemma allMatches_length : forall r fuel pos s prev,
    Forall (fun c => length c = S (NumSubexp r)) (allMatches fuel r pos s prev).
Proof.
  intros r fuel. induction fuel as [|fuel IH]; intros pos s prev; simpl.
  - constructor.
  - destruct (search r pos s) as [c|] eqn:E; [|constructor].
    pose proof (search_length _ _ _ _ E) as Hc.
    destruct (whole c) as [b e].
    destruct (e =? pos).
    + assert (Hrest : Forall (fun c => length c = S (NumSubexp r))
                        match s with [] => [] | _ :: s' => allMatches fuel r (S pos) s' (Some e) end).
      { destruct s; [constructor | apply IH]. }
      destruct prev as [p|]; [destruct (negb (b =? p))|]; auto.
    + constructor; auto.
Qed.

Lemma FindAllStringSubmatch_length : forall r s,
    Forall (fun sm => length sm = S (NumSubexp r)) (FindAllStringSubmatch r s).
Proof.
  intros r s. unfold FindAllStringSubmatch.
  apply Forall_map.
  eapply Forall_impl; [|apply allMatches_length].
  intros c Hc. unfold submatch_strings. rewrite length_map. exact Hc.
Qed.

Lemma MatchString_FindAll : forall r s,
    MatchString r s = true <-> FindAllStringSubmatch r s <> [].
Proof.
  intros r s. unfold MatchString, FindAllStringSubmatch. simpl.
  destruct (search r 0 s) as [c|]; simpl.
  - split; [intros _|reflexivity].
    destruct (whole c) as [b e]. destruct (e =? 0); simpl; discriminate.
  - split; [discriminate|intros H; exfalso; apply H; reflexivity].
Qed.

Lemma ascii_eqb_eq : forall a b, ascii_eqb a b = true <-> a = b.
Proof. intros a b. unfold ascii_eqb. apply Ascii.eqb_eq. Qed.

Lemma ascii_eqb_refl : forall a, ascii_eqb a a = true.
Proof. intros a. apply ascii_eqb_eq. reflexivity. Qed.

Lemma star_loop_sound : forall L body,
    sound_for L body ->
    forall n, sound_for (star_lang L) (fun k => star_loop body k n).
Proof.
  intros L body Hbody n.
  induction n as [|n IH]; intros k pos s c x; simpl.
  - intros H. exists [], s, c. rewrite Nat.add_0_r.
    repeat split; [constructor | exact H].
  - destruct (body _ pos s c) as [y|] eqn:E.
    + intros Hx; injection Hx as ->.
      apply Hbody in E. destruct E as (w1 & s1 & c1 & -> & HL & Hc1 & Hk).
      destruct (pos <? pos + length w1); [|discriminate].
      apply IH in Hk. destruct Hk as (w2 & s2 & c2 & -> & HS & Hc2 & Hk).
      exists (w1 ++ w2), s2, c2.
      rewrite length_app, Nat.add_assoc, <- app_assoc.
      repeat split; [constructor; assumption | congruence | exact Hk].
    + intros H. exists [], s, c. rewrite Nat.add_0_r.
      repeat split; [constructor | exact H].
Qed.

Lemma rmatch_sound : forall r, sound_for (lang r) (rmatch r).
Proof.
  induction r as [|p| | |r1 IH1 r2 IH2|r1 IH1 r2 IH2|r1 IH1|i r1 IH1];
    intros k pos s c x; simpl.
  - intros H. exists [], s, c. rewrite Nat.add_0_r. auto.
  - destruct s as [|a s']; [discriminate|].
    destruct (p a) eqn:Ep; [|discriminate].
    intros H. exists [a], s', c. simpl. rewrite Nat.add_1_r.
    repeat split; eauto.
  - destruct (pos =? 0) eqn:E; [|discriminate].
    apply Nat.eqb_eq in E.
    intros H. exists [], s, c. rewrite Nat.add_0_r. auto.
  - destruct s; [|discriminate].
    intros H. exists [], [], c. rewrite Nat.add_0_r. auto.
  - intros H. apply IH1 in H.
    destruct H as (w1 & s1 & c1 & -> & H1 & Hc1 & H).
    apply IH2 in H. destruct H as (w2 & s2 & c2 & -> & H2 & Hc2 & H).
    exists (w1 ++ w2), s2, c2.
    rewrite length_app, Nat.add_assoc, <- app_assoc.
    repeat split; [|congruence|exact H]. exists w1, w2. auto.
  - destruct (rmatch r1 k pos s c) as [y|] eqn:E.
    + intros Hx; injection Hx as ->.
      apply IH1 in E. destruct E as (w & s' & c' & -> & H1 & Hc & H).
      exists w, s', c'. auto.
    + intros H. apply IH2 in H.
      destruct H as (w & s' & c' & -> & H2 & Hc & H).
      exists w, s', c'. auto.
  - intros H. exact (star_loop_sound _ _ IH1 (length s) k pos s c x H).
  - intros H. apply IH1 in H. destruct H as (w & s' & c' & -> & H1 & Hc & H).
    exists w, s', (set_cap i (pos, pos + length w) c').
    rewrite set_cap_length. auto.
Qed.

(** A match found at an offset starts there, is a match in the sense of
    [lang], and its bounds are those of the word matched. *)
Lemma match_at_sound : forall r pos s c,
    match_at r pos s = Some c ->
    exists w s', s = w ++ s' /\ lang r pos w s' /\
                 whole c = (pos, pos + length w).
Proof.
  intros r pos s c H. unfold match_at in H. cbn [rmatch] in H.
  apply rmatch_sound in H.
  destruct H as (w & s' & c' & -> & H & Hc & Hx).
  exists w, s'. repeat split; [exact H|].
  unfold accept in Hx. injection Hx as <-.
  rewrite repeat_length in Hc.
  destruct c' as [|x c']; [discriminate|reflexivity].
Qed.

Lemma search_sound : forall r s pos c,
    search r pos s = Some c ->
    exists pre w s',
      s = pre ++ w ++ s' /\ lang r (pos + length pre) w s' /\
      whole c = (pos + length pre, pos + length pre + length w).
Proof.
  intros r s. induction s as [|a s IH]; intros pos c; simpl;
    destruct (match_at r pos _) as [y|] eqn:E; intros H; try discriminate.
  - injection H as ->.
    apply match_at_sound in E. destruct E as (w & s' & -> & HL & Hw).
    exists [], w, s'. simpl. rewrite Nat.add_0_r. auto.
  - injection H as ->.
    apply match_at_sound in E. destruct E as (w & s' & -> & HL & Hw).
    exists [], w, s'. simpl. rewrite Nat.add_0_r. auto.
  - apply IH in H. destruct H as (pre & w & s' & -> & HL & Hw).
    exists (a :: pre), w, s'. simpl.
    rewrite <- Nat.add_succ_comm. auto.
Qed.

Lemma allMatches_S : forall fuel r pos s prev,
    allMatches (S fuel) r pos s prev =
    match search r pos s with
    | None => []
    | Some c =>
        let (b, e) := whole c in
        if e =? pos then
          let accepted :=
            match prev with
            | Some p => negb (b =? p)
            | None => true
            end in
          let rest :=
            match s with
            | [] => []
            | _ :: s' => allMatches fuel r (S pos) s' (Some e)
            end in
          if accepted then c :: rest else rest
        else c :: allMatches fuel r e (skipn (e - pos) s) (Some e)
    end.
Proof. reflexivity. Qed.

(** The loop of [allMatches] ends before its fuel does: one unit more than
    the length of the text left is enough, and more changes nothing. *)
Lemma allMatches_fuel : forall r fuel s pos prev,
    length s < fuel ->
    allMatches (S fuel) r pos s prev = allMatches fuel r pos s prev.
Proof.
  intros r fuel.
  induction fuel as [|fuel IH]; intros s pos prev Hf; [lia|].
  rewrite (allMatches_S (S fuel)), (allMatches_S fuel).
  destruct (search r pos s) as [c|] eqn:E; [|reflexivity].
  apply search_sound in E. destruct E as (pre & w & s' & -> & _ & ->).
  destruct (pos + length pre + length w =? pos) eqn:Ee.
  - destruct (pre ++ w ++ s') as [|a t] eqn:Et.
    + reflexivity.
    + rewrite (IH t (S pos)) by (simpl in Hf; lia). reflexivity.
  - apply Nat.eqb_neq in Ee. f_equal. apply IH.
    rewrite length_skipn, !length_app in *. lia.
Qed.

Lemma FindAllStringSubmatch_fuel : forall r s extra,
    map (submatch_strings s)
        (allMatches (extra + S (S (length s))) r 0 s None)
    = FindAllStringSubmatch r s.
Proof.
  intros r s extra. unfold FindAllStringSubmatch. f_equal.
  induction extra as [|extra IH]; [reflexivity|].
  rewrite <- IH. apply allMatches_fuel. lia.
Qed.

Lemma lang_Lit : forall l pos w rest, lang (Lit l) pos w rest -> w = l.
Proof.
  induction l as [|a l IH]; intros pos w rest; simpl.
  - auto.
  - intros (w1 & w2 & -> & (b & -> & Hb) & H2).
    apply IH in H2. subst w2.
    apply ascii_eqb_eq in Hb. subst b. reflexivity.
Qed.

Lemma star_lang_Class : forall p pos w rest,
    star_lang (lang (Class p)) pos w rest -> forallb p w = true.
Proof.
  intros p pos w rest H.
  induction H as [|pos w1 w2 rest (a & -> & Ha) _ IH]; simpl.
  - reflexivity.
  - rewrite Ha. exact IH.
Qed.

(** A match of the package pattern is a package path: the match starts
    the text, ends it, and has the parts the pattern names. *)
Lemma lang_PACKAGE : forall pos w rest,
    lang PACKAGE_FILE_REGEX_compiled pos w rest ->
    pos = 0 /\ rest = [] /\ exists pkg tail, package_path pkg tail w.
Proof.
  intros pos w rest H.
  unfold PACKAGE_FILE_REGEX_compiled in H. cbn [lang Plus Chr Dot] in H.
  destruct H as (w0 & w1 & -> & (-> & ->) & wl & w2 & -> & Hl & H).
  apply lang_Lit in Hl. subst wl.
  destruct H as (wp & w3 & -> & Hp & H).
  destruct Hp as (wa & wb & -> & (a & -> & Ha) & Hp).
  apply star_lang_Class in Hp.
  destruct H as (wt & we & -> & Ht & (-> & ->)).
  destruct Ht as (ws & wd & -> & (b & -> & Hb) & Hd).
  apply star_lang_Class in Hd.
  apply ascii_eqb_eq in Hb. subst b.
  split; [reflexivity|split; [reflexivity|]].
  exists ([a] ++ wb), wd. unfold package_path.
  repeat split.
  - simpl. rewrite ?app_nil_r. reflexivity.
  - discriminate.
  - simpl. rewrite Ha. exact Hp.
  - exact Hd.
Qed.

Lemma lang_MARKDOWN : forall pos w rest,
    lang MARKDOWN_FILE_PATH_REGEX_compiled pos w rest ->
    pos = 0 /\ rest = [] /\ exists stem, w = stem ++ str ".md".
Proof.
  intros pos w rest H.
  unfold MARKDOWN_FILE_PATH_REGEX_compiled in H. cbn [lang Plus Chr Dot] in H.
  destruct H as (w0 & w1 & -> & (-> & ->) & H).
  destruct H as (wd & w2 & -> & _ & H).
  destruct H as (ws & w3 & -> & _ & H).
  destruct H as (wn & w4 & -> & _ & H).
  destruct H as (wl & we & -> & Hl & (-> & ->)).
  apply lang_Lit in Hl. subst wl.
  split; [reflexivity|split; [reflexivity|]].
  exists (wd ++ ws ++ wn). simpl. rewrite ?app_nil_r, <- ?app_assoc. reflexivity.
Qed.

(** *** Running the matcher on literals and on iterated classes *)

Lemma rmatch_Lit : forall l k pos s c,
    rmatch (Lit l) k pos (l ++ s) c = k (pos + length l) s c.
Proof.
  induction l as [|a l IH]; intros k pos s c; simpl.
  - rewrite Nat.add_0_r. reflexivity.
  - rewrite ascii_eqb_refl, IH. f_equal. lia.
Qed.

Lemma star_loop_Class_O : forall p k pos s c,
    star_loop (rmatch (Class p)) k 0 pos s c = k pos s c.
Proof. reflexivity. Qed.

Lemma star_loop_Class_S : forall p k n pos s c,
    star_loop (rmatch (Class p)) k (S n) pos s c =
    match s with
    | [] => k pos s c
    | a :: s' =>
        if p a then
          match star_loop (rmatch (Class p)) k n (S pos) s' c with
          | Some x => Some x
          | None => k pos s c
          end
        else k pos s c
    end.
Proof.
  intros p k n pos s c.
  change (star_loop (rmatch (Class p)) k (S n) pos s c)
    with (match rmatch (Class p)
                  (fun pos' s' c' =>
                     if pos <? pos'
                     then star_loop (rmatch (Class p)) k n pos' s' c'
                     else None) pos s c with
          | Some x => Some x
          | None => k pos s c
          end).
  destruct s as [|a s']; [reflexivity|].
  cbn [rmatch]. destruct (p a); [|reflexivity].
  replace (pos <? S pos) with true by (symmetry; apply Nat.ltb_lt; lia).
  reflexivity.
Qed.

Lemma star_class_none : forall p k c w s' n pos,
    forallb p w = true ->
    stops p s' ->
    (forall u v, w = u ++ v -> k (pos + length u) (v ++ s') c = None) ->
    star_loop (rmatch (Class p)) k n pos (w ++ s') c = None.
Proof.
  intros p k c w s'.
  induction w as [|a w IH]; intros n pos Hw Hs Hk.
  - pose proof (Hk [] [] eq_refl) as H0. simpl in H0.
    rewrite Nat.add_0_r in H0.
    destruct n as [|n]; [exact H0|].
    rewrite star_loop_Class_S. cbn [app].
    destruct s' as [|b t]; [exact H0|].
    simpl in Hs. rewrite Hs. exact H0.
  - simpl in Hw. apply andb_true_iff in Hw. destruct Hw as [Ha Hw].
    pose proof (Hk [] (a :: w) eq_refl) as H0. simpl in H0.
    rewrite Nat.add_0_r in H0.
    destruct n as [|n]; [exact H0|].
    rewrite star_loop_Class_S. cbn [app]. rewrite Ha.
    rewrite IH; auto.
    intros u v ->. rewrite <- (Hk (a :: u) v eq_refl).
    f_equal. simpl. lia.
Qed.

(** Greedy iteration with backtracking: the class runs over [w1 ++ w2],
    every exit inside [w2] or after it fails, the exit after [w1]
    succeeds; then that exit is the answer. *)
Lemma star_class_backtrack : forall p k c x w2 s' w1 n pos,
    forallb p w1 = true ->
    forallb p w2 = true ->
    stops p s' ->
    length w1 <= n ->
    (forall u v, w2 = u ++ v -> u <> [] ->
                 k (pos + length w1 + length u) (v ++ s') c = None) ->
    k (pos + length w1) (w2 ++ s') c = Some x ->
    star_loop (rmatch (Class p)) k n pos (w1 ++ w2 ++ s') c = Some x.
Proof.
  intros p k c x w2 s'.
  induction w1 as [|a w1 IH]; intros n pos H1 H2 Hs Hn Hfail Hk.
  - simpl in Hk. rewrite Nat.add_0_r in Hk. simpl app.
    destruct n as [|n]; [exact Hk|].
    rewrite star_loop_Class_S.
    destruct w2 as [|b w2].
    + cbn [app]. destruct s' as [|b t]; [exact Hk|].
      simpl in Hs. rewrite Hs. exact Hk.
    + simpl in H2. apply andb_true_iff in H2. destruct H2 as [Hb H2].
      cbn [app]. rewrite Hb.
      rewrite star_class_none; auto.
      intros u v ->. rewrite <- (Hfail (b :: u) v eq_refl); [|discriminate].
      f_equal. simpl. lia.
  - simpl in H1. apply andb_true_iff in H1. destruct H1 as [Ha H1].
    destruct n as [|n]; [simpl in Hn; lia|].
    rewrite star_loop_Class_S. cbn [app]. rewrite Ha.
    rewrite (IH n (S pos)); auto.
    + simpl in Hn. lia.
    + intros u v Hu Hne. rewrite <- (Hfail u v Hu Hne). simpl. f_equal. lia.
    + rewrite <- Hk. simpl. f_equal. lia.
Qed.

(** Greedy iteration without backtracking: the exit at the end of the run
    succeeds. *)
Lemma star_class_greedy : forall p k c x w s' n pos,
    forallb p w = true ->
    stops p s' ->
    length w <= n ->
    k (pos + length w) s' c = Some x ->
    star_loop (rmatch (Class p)) k n pos (w ++ s') c = Some x.
Proof.
  intros p k c x w s' n pos Hw Hs Hn Hk.
  apply (star_class_backtrack p k c x [] s' w n pos); auto.
  intros u v Huv Hu. destruct u; [congruence|discriminate].
Qed.

Lemma substring_whole : forall s, substring s 0 (length s) = s.
Proof.
  intros s. unfold substring. simpl. rewrite Nat.sub_0_r. apply firstn_all.
Qed.

Lemma substring_middle : forall l m r,
    substring (l ++ m ++ r) (length l) (length l + length m) = m.
Proof.
  intros l m r. unfold substring.
  rewrite skipn_app, skipn_all, Nat.sub_diag. simpl.
  replace (length l + length m - length l) with (length m) by lia.
  rewrite firstn_app, firstn_all, Nat.sub_diag. simpl. apply app_nil_r.
Qed.

Lemma substring_tail : forall l r,
    substring (l ++ r) (length l) (length (l ++ r)) = r.
Proof.
  intros l r.
  rewrite <- (app_nil_r r) at 1. rewrite length_app.
  rewrite (substring_middle l r []). reflexivity.
Qed.

(** The equations of the matcher, one per construct. *)

Lemma rmatch_Seq : forall r1 r2 k pos s c,
    rmatch (Seq r1 r2) k pos s c = rmatch r1 (rmatch r2 k) pos s c.
Proof. reflexivity. Qed.

Lemma rmatch_Group : forall i r k pos s c,
    rmatch (Group i r) k pos s c =
    rmatch r (fun pos' s' c' => k pos' s' (set_cap i (pos, pos') c')) pos s c.
Proof. reflexivity. Qed.

Lemma rmatch_Star : forall r k pos s c,
    rmatch (Star r) k pos s c = star_loop (rmatch r) k (length s) pos s c.
Proof. reflexivity. Qed.

Lemma rmatch_Bol : forall k pos s c,
    rmatch Bol k pos s c = if pos =? 0 then k pos s c else None.
Proof. reflexivity. Qed.

Lemma rmatch_Eol_nil : forall k pos c, rmatch Eol k pos [] c = k pos [] c.
Proof. reflexivity. Qed.

Lemma rmatch_Class_cons : forall p k pos a s c,
    rmatch (Class p) k pos (a :: s) c = if p a then k (S pos) s c else None.
Proof. reflexivity. Qed.

Lemma rmatch_Chr_same : forall a k pos s c,
    rmatch (Chr a) k pos (a :: s) c = k (S pos) s c.
Proof.
  intros a k pos s c. unfold Chr. rewrite rmatch_Class_cons, ascii_eqb_refl.
  reflexivity.
Qed.

(** *** The package pattern *)

Lemma match_at_PACKAGE : forall pkg tail inputPath,
    package_path pkg tail inputPath ->
    match_at PACKAGE_FILE_REGEX_compiled 0 inputPath =
    Some [Some (0, length inputPath);
          Some (9, 9 + length pkg);
          Some (9 + length pkg, length inputPath)].
Proof.
  intros pkg tail inputPath (-> & Hne & Hpkg & Htail).
  destruct pkg as [|a pkg]; [congruence|].
  simpl in Hpkg. apply andb_true_iff in Hpkg. destruct Hpkg as [Ha Hpkg].
  unfold match_at, PACKAGE_FILE_REGEX_compiled.
  rewrite rmatch_Group, rmatch_Seq, rmatch_Bol. cbn [Nat.eqb].
  rewrite rmatch_Seq, rmatch_Lit, rmatch_Seq, rmatch_Group.
  unfold Plus. rewrite rmatch_Seq. cbn [app].
  rewrite rmatch_Class_cons, Ha, rmatch_Star.
  erewrite star_class_greedy; [reflexivity|exact Hpkg|reflexivity| |].
  - rewrite length_app. lia.
  - cbv beta. rewrite rmatch_Seq, rmatch_Group, rmatch_Seq.
    change (str "/" ++ tail) with ("/"%char :: tail).
    rewrite rmatch_Chr_same. unfold Dot. rewrite rmatch_Star.
    rewrite <- (app_nil_r tail) at 1 2.
    erewrite star_class_greedy; [reflexivity|exact Htail|exact I| |].
    + rewrite app_nil_r. lia.
    + cbv beta. rewrite rmatch_Eol_nil. unfold accept.
      simpl. repeat f_equal.
      all: rewrite ?length_app; simpl; rewrite ?length_app; simpl; lia.
Qed.

(** *** Patterns anchored at the start of the text *)

Lemma match_at_anchored : forall r pos s,
    pos <> 0 -> match_at (Seq Bol r) pos s = None.
Proof.
  intros r pos s Hpos. unfold match_at.
  rewrite rmatch_Group, rmatch_Seq, rmatch_Bol.
  destruct (pos =? 0) eqn:E; [|reflexivity].
  apply Nat.eqb_eq in E. contradiction.
Qed.

Lemma search_anchored : forall r s pos,
    pos <> 0 -> search (Seq Bol r) pos s = None.
Proof.
  intros r s. induction s as [|a s IH]; intros pos Hpos; simpl;
    rewrite match_at_anchored by exact Hpos; [reflexivity|].
  apply IH. lia.
Qed.

Lemma search_head : forall r pos s c,
    match_at r pos s = Some c -> search r pos s = Some c.
Proof.
  intros r pos s c H. destruct s; simpl; rewrite H; reflexivity.
Qed.

(** An anchored pattern that matches the whole of a non-empty text matches
    it once. *)
Lemma FindAll_anchored : forall r s c b,
    match_at (Seq Bol r) 0 s = Some c ->
    whole c = (b, length s) ->
    s <> [] ->
    FindAllStringSubmatch (Seq Bol r) s = [submatch_strings s c].
Proof.
  intros r s c b Hm Hw Hs. unfold FindAllStringSubmatch.
  cbn [allMatches]. rewrite (search_head _ _ _ _ Hm), Hw.
  destruct (length s =? 0) eqn:E.
  - apply Nat.eqb_eq in E. apply length_zero_iff_nil in E. contradiction.
  - rewrite search_anchored; [reflexivity|].
    intros E0. rewrite E0 in E. discriminate.
Qed.

Lemma FindAll_none : forall r s,
    search r 0 s = None -> FindAllStringSubmatch r s = [].
Proof.
  intros r s H. unfold FindAllStringSubmatch. cbn [allMatches].
  rewrite H. reflexivity.
Qed.

(** *** What the package pattern finds *)

Lemma FindAll_PACKAGE : forall pkg tail inputPath,
    package_path pkg tail inputPath ->
    FindAllStringSubmatch PACKAGE_FILE_REGEX_compiled inputPath =
    [[inputPath; pkg; str "/" ++ tail]].
Proof.
  intros pkg tail inputPath H.
  pose proof (match_at_PACKAGE _ _ _ H) as Hm.
  destruct H as (-> & Hne & Hpkg & Htail).
  unfold PACKAGE_FILE_REGEX_compiled in *.
  erewrite FindAll_anchored; [|exact Hm|reflexivity|discriminate].
  unfold submatch_strings. cbn [map]. repeat f_equal.
  - apply substring_whole.
  - apply (substring_middle (str "packages/") pkg (str "/" ++ tail)).
  - change (str "packages/" ++ pkg ++ str "/" ++ tail)
      with ((str "packages/" ++ pkg) ++ str "/" ++ tail) at 1.
    rewrite (app_assoc (str "packages/") pkg).
    replace (9 + length pkg) with (length (str "packages/" ++ pkg))
      by (rewrite length_app; reflexivity).
    apply substring_tail.
Qed.

Lemma isPackageInputPath_true : forall inputPath,
    isPackageInputPath inputPath = true <->
    exists pkg tail, package_path pkg tail inputPath.
Proof.
  intros inputPath. unfold isPackageInputPath, MatchString. split.
  - destruct (search PACKAGE_FILE_REGEX_compiled 0 inputPath) as [c|] eqn:E;
      [intros _|discriminate].
    apply search_sound in E. destruct E as (pre & w & s' & -> & HL & _).
    apply lang_PACKAGE in HL. destruct HL as (Hpos & -> & pkg & tail & HP).
    destruct pre; [|discriminate].
    exists pkg, tail. simpl. rewrite app_nil_r. exact HP.
  - intros (pkg & tail & HP).
    rewrite (search_head _ _ _ _ (match_at_PACKAGE _ _ _ HP)). reflexivity.
Qed.

Lemma getPackageName_package : forall pkg tail inputPath,
    package_path pkg tail inputPath ->
    getPackageName inputPath = Returns pkg None.
Proof.
  intros pkg tail inputPath H. unfold getPackageName.
  rewrite (FindAll_PACKAGE _ _ _ H). reflexivity.
Qed.

Lemma getPathRelativeToPackageRoot_package : forall pkg tail inputPath,
    package_path pkg tail inputPath ->
    getPathRelativeToPackageRoot inputPath = Returns (str "/" ++ tail) None.
Proof.
  intros pkg tail inputPath H. unfold getPathRelativeToPackageRoot.
  rewrite (FindAll_PACKAGE _ _ _ H). reflexivity.
Qed.

(** ** The link resolver on package pages *)

Lemma gostring_eqb_eq : forall s t, gostring_eqb s t = true <-> s = t.
Proof.
  induction s as [|a s IH]; intros [|b t]; simpl; split; intros H;
    try reflexivity; try discriminate.
  - apply andb_true_iff in H. destruct H as [Hab Hst].
    apply ascii_eqb_eq in Hab. apply IH in Hst. congruence.
  - injection H as -> ->. rewrite ascii_eqb_refl. simpl. apply IH. reflexivity.
Qed.

(** The URL prefix that [convertPackageLinkToUrl] builds for a package. *)
Lemma urlPrefix_package : forall pkg,
    strings_Replace PACKAGE_GITHUB_REPO_URL_PREFIX (str "<package-name>") pkg 1
    = package_url pkg.
Proof.
  intros pkg. unfold strings_Replace.
  destruct (gostring_eqb (str "<package-name>") pkg) eqn:E.
  - apply gostring_eqb_eq in E. subst pkg. reflexivity.
  - reflexivity.
Qed.

(** What the resolver returns on a package page, for any link. *)
Lemma convertPackageLinkToUrl_package : forall pkg tail inputPath linkPath,
    package_path pkg tail inputPath ->
    convertPackageLinkToUrl inputPath linkPath =
    Returns
      (if strings_HasPrefix linkPath (str "../") then
         package_url pkg ++
         filepath_Join [str "/" ++ tail; str "../"; linkPath]
       else if strings_HasPrefix linkPath (str "./") then
         package_url pkg ++ str "/" ++ tail
       else if strings_HasPrefix linkPath (str "/") then
         package_url pkg ++ linkPath
       else [])
      None.
Proof.
  intros pkg tail inputPath linkPath H.
  unfold convertPackageLinkToUrl.
  replace (isPackageInputPath inputPath) with true
    by (symmetry; apply isPackageInputPath_true; eauto).
  rewrite (getPackageName_package _ _ _ H).
  rewrite (getPathRelativeToPackageRoot_package _ _ _ H).
  unfold try_call. rewrite urlPrefix_package.
  destruct (strings_HasPrefix linkPath (str "/"));
    destruct (strings_HasPrefix linkPath (str "./"));
    destruct (strings_HasPrefix linkPath (str "../")); reflexivity.
Qed.

Lemma convertPackageLinkToUrl_returns : forall inputPath linkPath,
    exists url, convertPackageLinkToUrl inputPath linkPath = Returns url None.
Proof.
  intros inputPath linkPath.
  destruct (isPackageInputPath inputPath) eqn:E.
  - apply isPackageInputPath_true in E. destruct E as (pkg & tail & H).
    rewrite (convertPackageLinkToUrl_package _ _ _ linkPath H). eauto.
  - unfold convertPackageLinkToUrl. rewrite E. eauto.
Qed.

Lemma strings_HasPrefix_true : forall prefix s,
    strings_HasPrefix s prefix = true <-> exists r, s = prefix ++ r.
Proof.
  induction prefix as [|b prefix IH]; intros s; simpl.
  - split; [intros _; exists s; reflexivity|reflexivity].
  - destruct s as [|a s]; simpl.
    + split; [discriminate|intros (r & H); discriminate].
    + rewrite andb_true_iff, ascii_eqb_eq, IH. split.
      * intros (-> & r & ->). exists r. reflexivity.
      * intros (r & H). injection H as -> ->. eauto.
Qed.

(** C1.  On the package page [packages/module-vpc/modules/vpc-app/README.md]
    the same-directory link [./other.md] resolves to the URL of the page
    itself: the resolver appends the page's path relative to the package
    root and leaves out what follows [./] in the link.  The URL that the
    claim describes, with [other.md] appended, is another one. *)
Theorem C1_same_directory_link_drops_remainder :
  convertPackageLinkToUrl
    (str "packages/module-vpc/modules/vpc-app/README.md") (str "./other.md")
  = Returns
      (str "https://github.com/gruntwork-io/module-vpc/tree/master/modules/vpc-app/README.md")
      None /\
  convertPackageLinkToUrl
    (str "packages/module-vpc/modules/vpc-app/README.md") (str "./other.md")
  <> Returns
       (package_url (str "module-vpc") ++
        str "/modules/vpc-app/README.md" ++ str "other.md")
       None.
Proof.
  split; [vm_compute; reflexivity|].
  vm_compute. intros H. discriminate H.
Qed.

(** What the resolver does for every same-directory link of a package
    page: the URL of the package followed by the page's own path. *)
Lemma convertPackageLinkToUrl_same_directory :
  forall pkg tail inputPath linkPath,
    package_path pkg tail inputPath ->
    strings_HasPrefix linkPath (str "./") = true ->
    convertPackageLinkToUrl inputPath linkPath =
    Returns (package_url pkg ++ str "/" ++ tail) None.
Proof.
  intros pkg tail inputPath linkPath H Hl.
  rewrite (convertPackageLinkToUrl_package _ _ _ linkPath H).
  apply strings_HasPrefix_true in Hl. destruct Hl as (r & ->).
  reflexivity.
Qed.

(** C3.  When the input path is not of the form [packages/<pkg>/...], with
    [<pkg>] a non-empty name over [[\w -]], the resolver returns the link
    as it is, with a nil error, whatever the link. *)
Theorem C3_non_package_link_unchanged : forall inputPath linkPath,
    (forall pkg tail, ~ package_path pkg tail inputPath) ->
    convertPackageLinkToUrl inputPath linkPath = Returns linkPath None.
Proof.
  intros inputPath linkPath H. unfold convertPackageLinkToUrl.
  destruct (isPackageInputPath inputPath) eqn:E; [|reflexivity].
  apply isPackageInputPath_true in E. destruct E as (pkg & tail & HP).
  exfalso. exact (H pkg tail HP).
Qed.

Lemma C3_witness :
  (forall pkg tail, ~ package_path pkg tail (str "global/help/support.md")) /\
  convertPackageLinkToUrl (str "global/help/support.md") (str "../images/a.png")
  = Returns (str "../images/a.png") None.
Proof.
  assert (H : forall pkg tail,
             ~ package_path pkg tail (str "global/help/support.md")).
  { intros pkg tail (Heq & _). simpl in Heq. discriminate. }
  split; [exact H|].
  apply (C3_non_package_link_unchanged
           (str "global/help/support.md") (str "../images/a.png") H).
Defined.

(** C7.  On a package page, a link that begins with [../] resolves to the
    URL of the package followed by the cleaned join of the page's path
    relative to the package root, [../] and the link. *)
Theorem C7_parent_relative_link : forall pkg tail inputPath linkPath,
    package_path pkg tail inputPath ->
    strings_HasPrefix linkPath (str "../") = true ->
    convertPackageLinkToUrl inputPath linkPath =
    Returns (package_url pkg ++
             filepath_Join [str "/" ++ tail; str "../"; linkPath]) None.
Proof.
  intros pkg tail inputPath linkPath H Hl.
  rewrite (convertPackageLinkToUrl_package _ _ _ linkPath H), Hl.
  reflexivity.
Qed.

Lemma C7_witness :
  package_path (str "module-vpc") (str "modules/vpc-app/README.md")
               (str "packages/module-vpc/modules/vpc-app/README.md") /\
  strings_HasPrefix (str "../vpc-mgmt/main.tf") (str "../") = true /\
  convertPackageLinkToUrl
    (str "packages/module-vpc/modules/vpc-app/README.md")
    (str "../vpc-mgmt/main.tf")
  = Returns
      (str "https://github.com/gruntwork-io/module-vpc/tree/master/modules/vpc-mgmt/main.tf")
      None.
Proof.
  assert (H : package_path (str "module-vpc") (str "modules/vpc-app/README.md")
                (str "packages/module-vpc/modules/vpc-app/README.md")).
  { unfold package_path. repeat split; try reflexivity. discriminate. }
  split; [exact H|]. split; [reflexivity|].
  apply (C7_parent_relative_link _ _ _ (str "../vpc-mgmt/main.tf") H).
  reflexivity.
Defined.

(** C9.  On a package page, a link that begins with none of [/], [./] and
    [../] resolves to the empty string with a nil error. *)
Theorem C9_bare_relative_link_gives_empty :
  forall pkg tail inputPath linkPath,
    package_path pkg tail inputPath ->
    strings_HasPrefix linkPath (str "/") = false ->
    strings_HasPrefix linkPath (str "./") = false ->
    strings_HasPrefix linkPath (str "../") = false ->
    convertPackageLinkToUrl inputPath linkPath = Returns [] None.
Proof.
  intros pkg tail inputPath linkPath H H1 H2 H3.
  rewrite (convertPackageLinkToUrl_package _ _ _ linkPath H), H1, H2, H3.
  reflexivity.
Qed.

Lemma C9_witness :
  package_path (str "module-vpc") (str "README.md")
               (str "packages/module-vpc/README.md") /\
  convertPackageLinkToUrl (str "packages/module-vpc/README.md") (str "foo/bar")
  = Returns [] None.
Proof.
  assert (H : package_path (str "module-vpc") (str "README.md")
                (str "packages/module-vpc/README.md")).
  { unfold package_path. repeat split; try reflexivity. discriminate. }
  split; [exact H|].
  apply (C9_bare_relative_link_gives_empty _ _ _ (str "foo/bar") H);
    reflexivity.
Defined.

(** C10.  When [isPackageInputPath] holds of the input path, the package
    pattern finds one match with the whole text and two groups, so
    [getPackageName] and [getPathRelativeToPackageRoot] return with a nil
    error, and so does [convertPackageLinkToUrl], for every link. *)
Theorem C10_package_error_branches_unreachable : forall inputPath,
    isPackageInputPath inputPath = true ->
    (exists submatch,
        FindAllStringSubmatch PACKAGE_FILE_REGEX_compiled inputPath
        = [submatch] /\
        length submatch = PACKAGE_FILE_REGEX_NUM_CAPTURE_GROUPS + 1) /\
    (exists packageName, getPackageName inputPath = Returns packageName None) /\
    (exists relPath,
        getPathRelativeToPackageRoot inputPath = Returns relPath None) /\
    (forall linkPath,
        exists url, convertPackageLinkToUrl inputPath linkPath = Returns url None).
Proof.
  intros inputPath E.
  apply isPackageInputPath_true in E. destruct E as (pkg & tail & H).
  repeat split.
  - exists [inputPath; pkg; str "/" ++ tail].
    split; [apply (FindAll_PACKAGE _ _ _ H)|reflexivity].
  - exists pkg. apply (getPackageName_package _ _ _ H).
  - exists (str "/" ++ tail).
    apply (getPathRelativeToPackageRoot_package _ _ _ H).
  - intros linkPath. apply convertPackageLinkToUrl_returns.
Qed.

Lemma C10_witness :
  isPackageInputPath (str "packages/module-vpc/modules/vpc-app/README.md")
  = true /\
  getPackageName (str "packages/module-vpc/modules/vpc-app/README.md")
  = Returns (str "module-vpc") None.
Proof.
  split; [reflexivity|].
  destruct (C10_package_error_branches_unreachable
              (str "packages/module-vpc/modules/vpc-app/README.md")
              eq_refl) as (_ & (packageName & Hn) & _).
  rewrite Hn. vm_compute in Hn. injection Hn as <-. reflexivity.
Defined.

(** ** The markdown pattern and the extension of the output file *)

Lemma rmatch_Class_miss : forall p k pos s c,
    match s with [] => True | a :: _ => p a = false end ->
    rmatch (Class p) k pos s c = None.
Proof.
  intros p k pos [|a s] c H; [reflexivity|].
  rewrite rmatch_Class_cons, H. reflexivity.
Qed.

Lemma split_after_dot_md : forall u v,
    str ".md" = u ++ v -> u <> [] ->
    v = str "md" \/ v = str "d" \/ v = [].
Proof.
  intros u v H Hu.
  destruct u as [|a [|b [|c [|d u]]]]; try congruence;
    simpl in H; injection H; intros; subst; auto.
  destruct u; discriminate.
Qed.

Lemma match_at_MARKDOWN : forall dir name path,
    md_path dir name path ->
    match_at MARKDOWN_FILE_PATH_REGEX_compiled 0 path =
    Some [Some (0, length path);
          Some (S (length dir), S (length dir) + length name)].
Proof.
  intros dir name path (-> & Hnl & Hname).
  rewrite !forallb_app in Hnl.
  apply andb_true_iff in Hnl. destruct Hnl as [Hdir Hnl].
  apply andb_true_iff in Hnl. destruct Hnl as [_ Hnl].
  apply andb_true_iff in Hnl. destruct Hnl as [Hn _].
  unfold match_at, MARKDOWN_FILE_PATH_REGEX_compiled.
  rewrite rmatch_Group, rmatch_Seq, rmatch_Bol. cbn [Nat.eqb].
  rewrite rmatch_Seq. unfold Dot. rewrite rmatch_Star.
  replace (dir ++ str "/" ++ name ++ str ".md")
    with (dir ++ (str "/" ++ name ++ str ".md") ++ [])
    by (rewrite app_nil_r; reflexivity).
  erewrite (star_class_backtrack not_newline _ _ _
              (str "/" ++ name ++ str ".md") [] dir);
    [reflexivity|exact Hdir| |exact I| | |].
  - simpl. rewrite forallb_app, Hn. reflexivity.
  - rewrite !length_app. lia.
  - (* no later slash *)
    intros u v Huv Hu. rewrite rmatch_Seq. apply rmatch_Class_miss.
    destruct u as [|a u]; [congruence|].
    simpl in Huv. injection Huv as _ Huv.
    assert (Hv : forallb (fun a => negb (ascii_eqb a "/")) (u ++ v) = true).
    { rewrite <- Huv, forallb_app, Hname. reflexivity. }
    rewrite forallb_app in Hv. apply andb_true_iff in Hv.
    destruct Hv as [_ Hv].
    destruct v as [|b v]; simpl; [exact I|].
    simpl in Hv. apply andb_true_iff in Hv. destruct Hv as [Hb _].
    apply negb_true_iff in Hb.
    destruct (ascii_eqb "/" b) eqn:E; [|reflexivity].
    apply ascii_eqb_eq in E. subst b. rewrite ascii_eqb_refl in Hb.
    discriminate.
  - (* the last slash *)
    rewrite rmatch_Seq. cbn [app str String.list_ascii_of_string].
    rewrite rmatch_Chr_same, rmatch_Seq, rmatch_Group, rmatch_Star.
    rewrite app_nil_r.
    replace (name ++ str ".md") with (name ++ str ".md" ++ [])
      by reflexivity.
    erewrite (star_class_backtrack not_newline _ _ _ (str ".md") [] name);
      [reflexivity|exact Hn|reflexivity|exact I| | |].
    + rewrite !length_app. lia.
    + intros u v Huv Hu. cbv beta. rewrite app_nil_r.
      destruct (split_after_dot_md u v Huv Hu) as [-> | [-> | ->]];
        reflexivity.
    + cbv beta. rewrite rmatch_Seq, rmatch_Lit, rmatch_Eol_nil.
      unfold accept. simpl. repeat f_equal.
      all: rewrite ?length_app; simpl; rewrite ?length_app; simpl; lia.
Qed.

Lemma FindAll_MARKDOWN : forall dir name path,
    md_path dir name path ->
    FindAllStringSubmatch MARKDOWN_FILE_PATH_REGEX_compiled path =
    [[path; name]].
Proof.
  intros dir name path H.
  pose proof (match_at_MARKDOWN _ _ _ H) as Hm.
  destruct H as (-> & Hnl & Hname).
  unfold MARKDOWN_FILE_PATH_REGEX_compiled in *.
  erewrite FindAll_anchored; [|exact Hm|reflexivity|].
  - unfold submatch_strings. cbn [map]. repeat f_equal.
    + apply substring_whole.
    + change (dir ++ str "/" ++ name ++ str ".md")
        with (dir ++ ["/"%char] ++ name ++ str ".md").
      rewrite (app_assoc dir ["/"%char]).
      replace (S (length dir)) with (length (dir ++ ["/"%char]))
        by (rewrite length_app; simpl; lia).
      apply substring_middle.
  - destruct dir; discriminate.
Qed.

(** Without a trailing [.md] the markdown pattern finds nothing. *)
Lemma FindAll_MARKDOWN_none : forall path,
    (forall stem, path <> stem ++ str ".md") ->
    FindAllStringSubmatch MARKDOWN_FILE_PATH_REGEX_compiled path = [].
Proof.
  intros path H. apply FindAll_none.
  destruct (search MARKDOWN_FILE_PATH_REGEX_compiled 0 path) as [c|] eqn:E;
    [|reflexivity].
  apply search_sound in E. destruct E as (pre & w & s' & -> & HL & _).
  apply lang_MARKDOWN in HL. destruct HL as (Hpos & -> & stem & ->).
  destruct pre; [|discriminate].
  exfalso. apply (H stem). simpl. rewrite app_nil_r. reflexivity.
Qed.

Lemma replaceMd_no_md : forall path,
    (forall stem, path <> stem ++ str ".md") ->
    replaceMdFileExtensionWithHtmlFileExtension path =
    Returns [] (Some (wrong_groups_MARKDOWN path)).
Proof.
  intros path H. unfold replaceMdFileExtensionWithHtmlFileExtension.
  rewrite (FindAll_MARKDOWN_none _ H). reflexivity.
Qed.

Lemma replaceMd_md_path : forall dir name path,
    md_path dir name path ->
    replaceMdFileExtensionWithHtmlFileExtension path =
    Returns (strings_Replace path (name ++ str ".md") (name ++ str ".html")
                             (-1)) None.
Proof.
  intros dir name path H. unfold replaceMdFileExtensionWithHtmlFileExtension.
  rewrite (FindAll_MARKDOWN _ _ _ H). reflexivity.
Qed.

(** *** [strings.Replace] on a path whose last element is the text replaced *)


Lemma strings_HasPrefix_before_slash : forall old x v,
    no_slash old ->
    strings_HasPrefix (x ++ "/"%char :: v) old = strings_HasPrefix x old.
Proof.
  unfold no_slash.
  induction old as [|b old IH]; intros x v H; [reflexivity|].
  simpl in H. apply andb_true_iff in H. destruct H as [Hb H].
  destruct x as [|a x]; simpl.
  - apply negb_true_iff in Hb.
    destruct (ascii_eqb "/" b) eqn:E; [|reflexivity].
    apply ascii_eqb_eq in E. subst b. rewrite ascii_eqb_refl in Hb.
    discriminate.
  - rewrite IH by exact H. reflexivity.
Qed.

Lemma replace_scan_skip : forall old new limit u r,
    replace_scan old new limit (length u) (u ++ r) =
    replace_scan old new limit 0 r.
Proof.
  intros old new limit u r. induction u as [|a u IH]; [|exact IH].
  destruct r; reflexivity.
Qed.

Lemma replace_scan_before_slash : forall old new v,
    no_slash old -> old <> [] ->
    forall u skip,
      skip <= length u ->
      replace_scan old new None skip (u ++ "/"%char :: v) =
      replace_scan old new None skip (u ++ ["/"%char]) ++
      replace_scan old new None 0 v.
Proof.
  intros old new v Hold Hne.
  induction u as [|a u IH]; intros skip Hskip.
  - simpl in Hskip. replace skip with 0 by lia. cbn [app replace_scan].
    pose proof (strings_HasPrefix_before_slash old [] v Hold) as E1.
    pose proof (strings_HasPrefix_before_slash old [] [] Hold) as E2.
    cbn [app] in E1, E2. rewrite E1, E2.
    destruct old as [|b old]; [congruence|]. reflexivity.
  - destruct skip as [|skip].
    + cbn [app replace_scan].
      pose proof (strings_HasPrefix_before_slash old (a :: u) v Hold) as E1.
      pose proof (strings_HasPrefix_before_slash old (a :: u) [] Hold) as E2.
      cbn [app] in E1, E2. rewrite E1, E2.
      destruct (strings_HasPrefix (a :: u) old) eqn:E.
      * apply strings_HasPrefix_true in E. destruct E as (r & E).
        cbn [option_map]. rewrite IH.
        -- rewrite app_assoc. reflexivity.
        -- assert (length (a :: u) = length (old ++ r)) by (rewrite E; reflexivity).
           rewrite length_app in H. simpl in H. lia.
      * rewrite IH by lia. reflexivity.
    + cbn [app replace_scan]. apply IH. simpl in Hskip. lia.
Qed.

Lemma strings_HasPrefix_refl : forall s, strings_HasPrefix s s = true.
Proof.
  intros s. apply strings_HasPrefix_true. exists []. symmetry. apply app_nil_r.
Qed.

Lemma replace_scan_self : forall old new,
    replace_scan old new None 0 old = match old with [] => [] | _ :: _ => new end.
Proof.
  intros [|a old] new; [reflexivity|].
  cbn [replace_scan]. rewrite strings_HasPrefix_refl.
  cbn [length Nat.sub option_map]. rewrite Nat.sub_0_r.
  pose proof (replace_scan_skip (a :: old) new None old []) as E.
  rewrite app_nil_r in E. rewrite E. apply app_nil_r.
Qed.

Lemma gostring_eqb_md_html : forall name,
    gostring_eqb (name ++ str ".md") (name ++ str ".html") = false.
Proof.
  intros name. destruct (gostring_eqb _ _) eqn:E; [|reflexivity].
  apply gostring_eqb_eq in E. apply app_inv_head in E. discriminate.
Qed.

Lemma strings_Replace_all : forall s old new,
    old <> [] ->
    strings_Replace s old new (-1) =
    if gostring_eqb old new then s else replace_scan old new None 0 s.
Proof.
  intros s old new Hne. unfold strings_Replace.
  destruct (gostring_eqb old new); [reflexivity|].
  destruct old; [congruence|reflexivity].
Qed.

(** Replacing [<name>.md] by [<name>.html] in [<dir>/<name>.md]: the last
    element becomes [<name>.html]; what comes before it is replaced on its
    own. *)
Lemma strings_Replace_md_path : forall dir name,
    no_slash name ->
    strings_Replace (dir ++ str "/" ++ name ++ str ".md")
                    (name ++ str ".md") (name ++ str ".html") (-1) =
    strings_Replace (dir ++ str "/")
                    (name ++ str ".md") (name ++ str ".html") (-1)
    ++ name ++ str ".html".
Proof.
  intros dir name Hname.
  assert (Hold : no_slash (name ++ str ".md")).
  { unfold no_slash in *. rewrite forallb_app, Hname. reflexivity. }
  assert (Hne : name ++ str ".md" <> []) by (destruct name; discriminate).
  rewrite !strings_Replace_all by exact Hne.
  rewrite gostring_eqb_md_html.
  change (dir ++ str "/" ++ name ++ str ".md")
    with (dir ++ "/"%char :: name ++ str ".md").
  rewrite (replace_scan_before_slash _ (name ++ str ".html") _ Hold Hne dir 0)
    by lia.
  rewrite replace_scan_self.
  destruct (name ++ str ".md"); [congruence|reflexivity].
Qed.

Lemma not_trailing_md : forall stem ext,
    In ext other_markdown_extensions ->
    forall stem', stem ++ str "." ++ ext <> stem' ++ str ".md".
Proof.
  intros stem ext Hin stem' H.
  apply (f_equal (@rev ascii)) in H.
  rewrite !rev_app_distr in H.
  simpl in Hin.
  destruct Hin as [<- | [<- | [<- | [<- | []]]]]; simpl in H; discriminate.
Qed.

(** C6.  [foo/bar.md] becomes [foo/bar.html]; a path that does not end in
    [.md] gives no panic but the error value
    [WrongNumberOfCaptureGroupsReturnedFromPageRegEx], which carries the
    path, the name of the pattern and the pattern. *)
Theorem C6_replaceMd_example_and_error :
  replaceMdFileExtensionWithHtmlFileExtension (str "foo/bar.md")
  = Returns (str "foo/bar.html") None /\
  forall path,
    (forall stem, path <> stem ++ str ".md") ->
    replaceMdFileExtensionWithHtmlFileExtension path
    = Returns [] (Some (WrongNumberOfCaptureGroupsReturnedFromPageRegEx
                          path (str "MARKDOWN_FILE_PATH_REGEX")
                          MARKDOWN_FILE_PATH_REGEX)).
Proof.
  split; [vm_compute; reflexivity|].
  intros path H. apply (replaceMd_no_md path H).
Qed.

Lemma C6_witness :
  (forall stem, str "foo/bar.txt" <> stem ++ str ".md") /\
  replaceMdFileExtensionWithHtmlFileExtension (str "foo/bar.txt")
  = Returns [] (Some (WrongNumberOfCaptureGroupsReturnedFromPageRegEx
                        (str "foo/bar.txt") (str "MARKDOWN_FILE_PATH_REGEX")
                        MARKDOWN_FILE_PATH_REGEX)).
Proof.
  assert (H : forall stem, str "foo/bar.txt" <> stem ++ str ".md").
  { intros stem H. apply (f_equal (@rev ascii)) in H.
    rewrite rev_app_distr in H. simpl in H. discriminate. }
  split; [exact H|].
  apply (proj2 C6_replaceMd_example_and_error (str "foo/bar.txt") H).
Defined.

Section PageOutput.

Variable Folder : Type.
Variable file_ReadFile : gostring -> outcome gostring.
Variable file_WriteFile : gostring -> gostring -> option error.
Variable Template : Type.
Variable template_Parse : gostring -> gostring -> outcome Template.
Variable template_Execute :
  Template -> gostring -> gostring -> gostring -> gostring.
Variable GetAsNavTreeHtml : Folder -> Page Folder -> gostring.

Local Abbreviation WritePage :=
  (WriteFullPageHtmlToOutputPath
     file_ReadFile file_WriteFile template_Parse template_Execute
     GetAsNavTreeHtml).

(** When the extension rewriter fails, nothing is written. *)
Lemma WritePage_nothing_without_md : forall p rootFolder rootOutputPath,
    (forall stem,
        filepath_Join [rootOutputPath; OutputPath (file p)]
        <> stem ++ str ".md") ->
    forall events err,
      WritePage p rootFolder rootOutputPath = Returns events err ->
      events = [] /\ err <> None.
Proof.
  intros p rootFolder rootOutputPath H events err.
  unfold WriteFullPageHtmlToOutputPath.
  rewrite (replaceMd_no_md _ H).
  destruct (getFullHtml _ _ _ _ _ _) as [fullHtml [e|]|]; simpl;
    intros E; try discriminate; injection E as <- <-;
    split; try reflexivity; discriminate.
Qed.

(** With the template at hand, a path [<dir>/<name>.md] is written as
    [<name>.html]. *)
Lemma WritePage_md : forall p rootFolder rootOutputPath dir name body tpl,
    md_path dir name (filepath_Join [rootOutputPath; OutputPath (file p)]) ->
    file_ReadFile (filepath_Join [HTML_TEMPLATE_REL_PATH])
    = Returns body None ->
    template_Parse (Title p) body = Returns tpl None ->
    exists fullHtml line err,
      WritePage p rootFolder rootOutputPath =
      Returns
        [Printed line;
         WriteFileCalled fullHtml
           (strings_Replace (dir ++ str "/") (name ++ str ".md")
                            (name ++ str ".html") (-1)
            ++ name ++ str ".html")] err.
Proof.
  intros p rootFolder rootOutputPath dir name body tpl Hmd Hread Hparse.
  unfold WriteFullPageHtmlToOutputPath, getFullHtml.
  rewrite Hread. cbn [try_call]. rewrite Hparse. cbn [try_call].
  rewrite (replaceMd_md_path _ _ _ Hmd). cbn [try_call].
  destruct Hmd as (Hpath & _ & Hname). rewrite Hpath.
  rewrite (strings_Replace_md_path dir name Hname).
  destruct (file_WriteFile _ _); eauto.
Qed.

(** C2, as the code has it.  Only the extension [md] is turned into
    [html].  A page whose output path under the output root is
    [<dir>/<name>.md] is handed to [WriteFile], once the template is read
    and parsed, under the path with [<name>.md] replaced by
    [<name>.html], whose last element is [<name>.html].  With one of the
    extensions [markdown], [mdown], [mkdn] and [mkd] in the place of [md]
    the extension rewriter returns its error and the page is not
    written. *)
Theorem C2_only_md_becomes_html :
  forall p rootFolder rootOutputPath dir name body tpl,
    md_path dir name (filepath_Join [rootOutputPath; OutputPath (file p)]) ->
    file_ReadFile (filepath_Join [HTML_TEMPLATE_REL_PATH])
    = Returns body None ->
    template_Parse (Title p) body = Returns tpl None ->
    (exists fullHtml line err,
        WritePage p rootFolder rootOutputPath =
        Returns
          [Printed line;
           WriteFileCalled fullHtml
             (strings_Replace (dir ++ str "/") (name ++ str ".md")
                              (name ++ str ".html") (-1)
              ++ name ++ str ".html")] err) /\
    (forall ext,
        In ext other_markdown_extensions ->
        replaceMdFileExtensionWithHtmlFileExtension
          (dir ++ str "/" ++ name ++ str "." ++ ext)
        = Returns [] (Some (wrong_groups_MARKDOWN
                              (dir ++ str "/" ++ name ++ str "." ++ ext))) /\
        forall p' rootFolder' rootOutputPath' events err,
          filepath_Join [rootOutputPath'; OutputPath (file p')]
          = dir ++ str "/" ++ name ++ str "." ++ ext ->
          WritePage p' rootFolder' rootOutputPath' = Returns events err ->
          events = [] /\ err <> None).
Proof.
  intros p rootFolder rootOutputPath dir name body tpl Hmd Hread Hparse.
  split.
  - exact (WritePage_md p rootFolder rootOutputPath dir name body tpl
                        Hmd Hread Hparse).
  - intros ext Hext.
    assert (Hno : forall stem,
               dir ++ str "/" ++ name ++ str "." ++ ext
               <> stem ++ str ".md").
    { intros stem. rewrite !app_assoc. rewrite <- (app_assoc _ (str ".")).
      apply not_trailing_md. exact Hext. }
    split.
    + apply replaceMd_no_md. exact Hno.
    + intros p' rootFolder' rootOutputPath' events err Hpath.
      apply WritePage_nothing_without_md. rewrite Hpath. exact Hno.
Qed.

End PageOutput.

Lemma C2_witness :
  md_path (str "out/packages/module-vpc/vpc-app") (str "example")
          (filepath_Join
             [str "out";
              OutputPath (file (example_page
                 (str "packages/module-vpc/vpc-app/example.md")))]) /\
  exists fullHtml line err,
    WriteFullPageHtmlToOutputPath
      example_ReadFile example_WriteFile example_Parse example_Execute
      example_NavTree
      (example_page (str "packages/module-vpc/vpc-app/example.md")) tt
      (str "out")
    = Returns
        [Printed line;
         WriteFileCalled fullHtml
           (str "out/packages/module-vpc/vpc-app/example.html")] err.
Proof.
  assert (Hmd : md_path (str "out/packages/module-vpc/vpc-app") (str "example")
                  (filepath_Join
                     [str "out";
                      OutputPath (file (example_page
                         (str "packages/module-vpc/vpc-app/example.md")))])).
  { unfold md_path. repeat split; reflexivity. }
  split; [exact Hmd|].
  exact (proj1 (C2_only_md_becomes_html
                  unit example_ReadFile example_WriteFile gostring
                  example_Parse example_Execute example_NavTree
                  (example_page (str "packages/module-vpc/vpc-app/example.md"))
                  tt (str "out") (str "out/packages/module-vpc/vpc-app")
                  (str "example") (str "<html/>") (str "<html/>")
                  Hmd eq_refl eq_refl)).
Defined.

(** C2, as the claim has it, fails: the page with the output path
    [packages/module-vpc/vpc-app/example.markdown] is not written to
    [example.html]; the call returns the error of the extension rewriter
    and has written nothing. *)
Lemma C2_counterexample :
  WriteFullPageHtmlToOutputPath
    example_ReadFile example_WriteFile example_Parse example_Execute
    example_NavTree
    (example_page (str "packages/module-vpc/vpc-app/example.markdown")) tt
    (str "out")
  = Returns []
      (Some (wrong_groups_MARKDOWN
               (str "out/packages/module-vpc/vpc-app/example.markdown"))).
Proof. vm_compute. reflexivity. Qed.

(** ** Populating a page *)

Lemma split_on_first : forall sep s, exists e es, split_on sep s = e :: es.
Proof.
  intros sep s. induction s as [|a s (e & es & IH)]; simpl.
  - eauto.
  - destruct (ascii_eqb a sep); [eauto|]. rewrite IH. eauto.
Qed.

Lemma convert_links_returns : forall inputPath linkPaths body,
    exists body', convert_links inputPath linkPaths body = Returns body' None.
Proof.
  intros inputPath linkPaths.
  induction linkPaths as [|linkPath linkPaths IH]; intros body; simpl.
  - eauto.
  - destruct (convertPackageLinkToUrl_returns inputPath linkPath) as (url & ->).
    cbn [try_call]. apply IH.
Qed.

Section PagePopulation.

Variable Folder : Type.
Variable file_ReadFile : gostring -> outcome gostring.
Variable github_flavored_markdown_Markdown : gostring -> gostring.
Variable strings_Title : gostring -> gostring.

Local Abbreviation Populate :=
  (@PopulateAllProperties Folder file_ReadFile
     github_flavored_markdown_Markdown strings_Title).

(** C8.  Once the body of the page is read, [PopulateAllProperties] returns
    with a nil error and leaves in [GithubUrl] what
    [convertPackageLinkToUrl] returns for the page's own [InputPath] and the
    link [./]; on a package page that is the URL of the package followed by
    the path of the page below the package root. *)
Theorem C8_GithubUrl_is_link_to_own_path : forall p body,
    file_ReadFile (FullInputPath (file p)) = Returns body None ->
    exists p',
      Populate p = Returns p' None /\
      convertPackageLinkToUrl (InputPath (file p)) (str "./")
      = Returns (GithubUrl p') None /\
      forall pkg tail,
        package_path pkg tail (InputPath (file p)) ->
        GithubUrl p' = package_url pkg ++ str "/" ++ tail.
Proof.
  intros p body Hread.
  unfold PopulateAllProperties, getTitle.
  destruct (split_on_first "." (filepath_Base (OutputPath (file p))))
    as (e & es & ->).
  cbn [nth_error]. unfold getSanitizedMarkdownBody, set_Title.
  cbn [file FullInputPath InputPath]. rewrite Hread.
  unfold convertMarkdownLinksToUrls.
  destruct (convert_links_returns (InputPath (file p)) (getAllLinkPaths body)
                                  body) as (body' & ->).
  unfold set_BodyHtml, set_BodyMarkdown. cbn [file InputPath].
  destruct (convertPackageLinkToUrl_returns (InputPath (file p)) (str "./"))
    as (url & Hurl).
  rewrite Hurl. eexists. split; [reflexivity|]. split; [reflexivity|].
  intros pkg tail H. unfold set_GithubUrl. cbn [GithubUrl].
  rewrite (convertPackageLinkToUrl_same_directory pkg tail _ (str "./") H
             eq_refl) in Hurl.
  injection Hurl as <-. reflexivity.
Qed.

End PagePopulation.

Lemma C8_witness :
  example_ReadFile
    (FullInputPath (file (example_page (str "packages/module-vpc/vpc-app/example.md"))))
  = Returns (str "<html/>") None /\
  exists p',
    PopulateAllProperties example_ReadFile (fun md => md) (fun t => t)
      (example_page (str "packages/module-vpc/vpc-app/example.md"))
    = Returns p' None /\
    GithubUrl p'
    = str "https://github.com/gruntwork-io/module-vpc/tree/master/modules/vpc-app/_docs/example.md".
Proof.
  split; [reflexivity|].
  destruct (C8_GithubUrl_is_link_to_own_path
              unit example_ReadFile (fun md => md) (fun t => t)
              (example_page (str "packages/module-vpc/vpc-app/example.md"))
              (str "<html/>") eq_refl) as (p' & Hp & _ & Hurl).
  exists p'. split; [exact Hp|].
  apply (Hurl (str "module-vpc") (str "modules/vpc-app/_docs/example.md")).
  unfold package_path. repeat split; try reflexivity. discriminate.
Defined.

(** ** Rewriting the links of a body *)

(** [strings.Replace] with a non-empty [old] is a sequence of replacements
    of occurrences of [old], whatever the limit. *)
Lemma replace_scan_steps : forall old new (R : relation gostring),
    old <> [] ->
    (forall l r, R (l ++ old ++ r) (l ++ new ++ r)) ->
    forall n s pre limit,
      length s <= n ->
      clos_refl_trans_1n gostring R (pre ++ s)
                         (pre ++ replace_scan old new limit 0 s).
Proof.
  intros old new R Hne HR.
  induction n as [|n IH]; intros s pre limit Hn.
  - destruct s; [constructor|simpl in Hn; lia].
  - destruct s as [|a s]; [constructor|].
    cbn [replace_scan].
    assert (Hgo :
              clos_refl_trans_1n gostring R (pre ++ a :: s)
                (pre ++
                 (if strings_HasPrefix (a :: s) old
                  then new ++ replace_scan old new (option_map pred limit)
                                           (length old - 1) s
                  else a :: replace_scan old new limit 0 s))).
    { destruct (strings_HasPrefix (a :: s) old) eqn:E.
      - apply strings_HasPrefix_true in E. destruct E as (r & E).
        destruct old as [|b old]; [congruence|].
        simpl in E. injection E as -> ->.
        cbn [length Nat.sub]. rewrite Nat.sub_0_r, replace_scan_skip.
        apply Relation_Operators.rt1n_trans with (y := pre ++ new ++ r).
        + apply (HR pre r).
        + rewrite !app_assoc. apply IH.
          simpl in Hn. rewrite length_app in Hn. lia.
      - change (pre ++ a :: s) with (pre ++ [a] ++ s).
        change (pre ++ a :: replace_scan old new limit 0 s)
          with (pre ++ [a] ++ replace_scan old new limit 0 s).
        rewrite !app_assoc. apply IH. simpl in Hn. lia. }
    destruct limit as [[|l]|]; [constructor|exact Hgo|exact Hgo].
Qed.

Lemma strings_Replace_steps : forall old new n (R : relation gostring),
    old <> [] ->
    (forall l r, R (l ++ old ++ r) (l ++ new ++ r)) ->
    forall s, clos_refl_trans_1n gostring R s (strings_Replace s old new n).
Proof.
  intros old new n R Hne HR s. unfold strings_Replace.
  destruct (gostring_eqb old new || (n =? 0)%Z); [constructor|].
  destruct old as [|b old]; [congruence|].
  apply (replace_scan_steps (b :: old) new R Hne HR (length s) s []).
  apply Nat.le_refl.
Qed.

Lemma link_steps_trans : forall inputPath linkPaths a b c,
    link_steps inputPath linkPaths a b ->
    link_steps inputPath linkPaths b c ->
    link_steps inputPath linkPaths a c.
Proof.
  intros inputPath linkPaths a b c Hab Hbc. unfold link_steps in *.
  induction Hab as [|x y z Hxy Hyz IH]; [exact Hbc|].
  apply Relation_Operators.rt1n_trans with (y := y); [exact Hxy|apply IH; exact Hbc].
Qed.

Lemma with_parens_not_nil : forall s, with_parens s <> [].
Proof. intros s. discriminate. Qed.

Lemma with_spaces_not_nil : forall s, with_spaces s <> [].
Proof. intros s. discriminate. Qed.

Lemma convert_links_steps : forall inputPath all linkPaths body body',
    incl linkPaths all ->
    convert_links inputPath linkPaths body = Returns body' None ->
    link_steps inputPath all body body'.
Proof.
  intros inputPath all linkPaths.
  induction linkPaths as [|linkPath linkPaths IH]; intros body body' Hincl;
    simpl.
  - intros H. injection H as <-. constructor.
  - destruct (convertPackageLinkToUrl_returns inputPath linkPath)
      as (url & Hurl).
    rewrite Hurl. cbn [try_call]. intros H.
    assert (Hin : In linkPath all) by (apply Hincl; left; reflexivity).
    apply link_steps_trans
      with (strings_Replace body (with_parens linkPath) (with_parens url) (-1)).
    { apply strings_Replace_steps; [apply with_parens_not_nil|].
      intros l r. exists linkPath, url.
      repeat split; [exact Hin|exact Hurl|constructor]. }
    apply link_steps_trans
      with (strings_Replace
              (strings_Replace body (with_parens linkPath) (with_parens url)
                               (-1))
              (with_spaces linkPath) (with_spaces url) (-1)).
    { apply strings_Replace_steps; [apply with_spaces_not_nil|].
      intros l r. exists linkPath, url.
      repeat split; [exact Hin|exact Hurl|constructor]. }
    apply IH; [|exact H].
    intros x Hx. apply Hincl. right. exact Hx.
Qed.

Lemma occurs_nil_text : forall old, old <> [] -> ~ occurs old [].
Proof.
  intros old Hne (l & r & H). destruct l; [|discriminate].
  destruct old; [congruence|discriminate].
Qed.

Lemma occurs_cons : forall old a s,
    occurs old (a :: s) ->
    strings_HasPrefix (a :: s) old = true \/ occurs old s.
Proof.
  intros old a s (l & r & H). destruct l as [|b l].
  - left. apply strings_HasPrefix_true. exists r. exact H.
  - right. simpl in H. injection H as _ ->. exists l, r. reflexivity.
Qed.

Lemma replaced_all_cons : forall old new a s t,
    strings_HasPrefix (a :: s) old = false ->
    replaced_all old new s t ->
    replaced_all old new (a :: s) (a :: t).
Proof.
  intros old new a s t Hp H. destruct H as [s Hno|u r r' Hfirst Hr].
  - apply replaced_none. intros Ho.
    apply occurs_cons in Ho. destruct Ho as [Ho|Ho]; [congruence|auto].
  - apply (replaced_first old new (a :: u) r r'); [|exact Hr].
    intros u1 u2 Hu Hne. destruct u1 as [|b u1].
    + simpl in Hu. subst u2. exact Hp.
    + simpl in Hu. injection Hu as _ ->. apply (Hfirst u1 u2 eq_refl Hne).
Qed.

(** The scan of [strings.Replace] without a limit replaces every
    occurrence in that sense. *)
Lemma replace_scan_replaced_all : forall old new,
    old <> [] ->
    forall n s,
      length s <= n ->
      replaced_all old new s (replace_scan old new None 0 s).
Proof.
  intros old new Hne.
  induction n as [|n IH]; intros s Hn.
  - destruct s; [|simpl in Hn; lia].
    apply replaced_none. apply occurs_nil_text. exact Hne.
  - destruct s as [|a s].
    { apply replaced_none. apply occurs_nil_text. exact Hne. }
    cbn [replace_scan option_map].
    destruct (strings_HasPrefix (a :: s) old) eqn:E.
    + apply strings_HasPrefix_true in E. destruct E as (r & E).
      destruct old as [|b old]; [congruence|].
      simpl in E. injection E as -> ->.
      cbn [length Nat.sub]. rewrite Nat.sub_0_r, replace_scan_skip.
      apply (replaced_first (b :: old) new [] r).
      * intros u1 u2 Hu Hu2. destruct u1; destruct u2; try discriminate.
        congruence.
      * apply IH. simpl in Hn. rewrite length_app in Hn. lia.
    + apply replaced_all_cons; [exact E|].
      apply IH. simpl in Hn. lia.
Qed.

Lemma replaced_all_same : forall old s t, replaced_all old old s t -> s = t.
Proof.
  intros old s t H. induction H as [|u r r' _ _ IH]; [reflexivity|].
  rewrite IH. reflexivity.
Qed.

Lemma strings_Replace_replaced_all : forall s old new,
    old <> [] ->
    replaced_all old new s (strings_Replace s old new (-1)).
Proof.
  intros s old new Hne.
  pose proof (replace_scan_replaced_all old new Hne (length s) s
                                        (Nat.le_refl _)) as H.
  rewrite strings_Replace_all by exact Hne.
  destruct (gostring_eqb old new) eqn:E; [|exact H].
  apply gostring_eqb_eq in E. subst new.
  pose proof (replaced_all_same _ _ _ H) as Hs.
  rewrite <- Hs in H. exact H.
Qed.

Lemma strings_HasPrefix_app_self : forall old r,
    strings_HasPrefix (old ++ r) old = true.
Proof.
  intros old r. apply strings_HasPrefix_true. exists r. reflexivity.
Qed.

(** The first occurrence of [old] in a text is at one place only. *)
Lemma first_occurrence_unique : forall old u r u' r',
    u ++ old ++ r = u' ++ old ++ r' ->
    (forall u1 u2, u = u1 ++ u2 -> u2 <> [] ->
                   strings_HasPrefix (u2 ++ old ++ r) old = false) ->
    (forall u1 u2, u' = u1 ++ u2 -> u2 <> [] ->
                   strings_HasPrefix (u2 ++ old ++ r') old = false) ->
    u = u' /\ r = r'.
Proof.
  intros old u. induction u as [|a u IH]; intros r u' r' H Hu Hu'.
  - destruct u' as [|b u'].
    + simpl in H. apply app_inv_head in H. auto.
    + exfalso. specialize (Hu' [] (b :: u') eq_refl).
      rewrite <- H in Hu'. simpl in Hu'.
      rewrite strings_HasPrefix_app_self in Hu'.
      discriminate Hu'. discriminate.
  - destruct u' as [|b u'].
    + exfalso. specialize (Hu [] (a :: u) eq_refl).
      rewrite H in Hu. simpl in Hu.
      rewrite strings_HasPrefix_app_self in Hu.
      discriminate Hu. discriminate.
    + simpl in H. injection H as -> H.
      destruct (IH r u' r' H) as [-> ->]; [| |auto].
      * intros u1 u2 E. apply (Hu (b :: u1) u2). simpl. rewrite E. reflexivity.
      * intros u1 u2 E. apply (Hu' (b :: u1) u2). simpl. rewrite E.
        reflexivity.
Qed.

(** The replacement of every occurrence has one result. *)
Lemma replaced_all_unique : forall old new s t t',
    replaced_all old new s t -> replaced_all old new s t' -> t = t'.
Proof.
  intros old new s t t' H. revert t'.
  induction H as [s Hno|u r r' Hfirst Hr IH]; intros t' H'.
  - inversion H' as [|u r r' _ _ Hs]; subst; [reflexivity|].
    exfalso. apply Hno. exists u, r. reflexivity.
  - inversion H' as [s0 Hno|u0 r0 r0' Hfirst0 Hr0 Hs]; subst.
    + exfalso. apply Hno. exists u, r. reflexivity.
    + destruct (first_occurrence_unique old u0 r0 u r Hs Hfirst0 Hfirst)
        as [-> ->].
      rewrite (IH r0' Hr0). reflexivity.
Qed.

Lemma link_passes_unique : forall inputPath linkPaths body a b,
    link_passes inputPath linkPaths body a ->
    link_passes inputPath linkPaths body b ->
    a = b.
Proof.
  intros inputPath linkPaths body a b H. revert b.
  induction H as [|linkPath linkPaths url body b1 b2 body' Hurl H1 H2 _ IH];
    intros b Hb.
  - inversion Hb; subst. reflexivity.
  - inversion Hb as [|? ? url' ? c1 c2 ? Hurl' H1' H2' Hrest]; subst.
    rewrite Hurl in Hurl'. injection Hurl' as <-.
    rewrite <- (replaced_all_unique _ _ _ _ _ H1 H1') in H2'.
    rewrite <- (replaced_all_unique _ _ _ _ _ H2 H2') in Hrest.
    apply IH. exact Hrest.
Qed.

Lemma convert_links_passes : forall inputPath linkPaths body body',
    convert_links inputPath linkPaths body = Returns body' None ->
    link_passes inputPath linkPaths body body'.
Proof.
  intros inputPath linkPaths.
  induction linkPaths as [|linkPath linkPaths IH]; intros body body'; simpl.
  - intros H. injection H as <-. constructor.
  - destruct (convertPackageLinkToUrl_returns inputPath linkPath)
      as (url & Hurl).
    rewrite Hurl. cbn [try_call]. intros H.
    apply (link_passes_cons inputPath linkPath linkPaths url body
             (strings_Replace body (with_parens linkPath) (with_parens url)
                              (-1))
             (strings_Replace
                (strings_Replace body (with_parens linkPath) (with_parens url)
                                 (-1))
                (with_spaces linkPath) (with_spaces url) (-1))
             body' Hurl).
    + apply strings_Replace_replaced_all. apply with_parens_not_nil.
    + apply strings_Replace_replaced_all. apply with_spaces_not_nil.
    + apply IH. exact H.
Qed.

(** C5.  [convertMarkdownLinksToUrls] returns, with a nil error, the body
    in which, for each candidate link path in turn, every occurrence of the
    link path between parentheses and then every occurrence between two
    spaces is replaced by its URL between the same; that determines the
    body returned.  Nothing else is changed: the body returned is reached
    by such replacements alone, the text around each kept as it is, and a
    body in which no candidate stands so comes back unchanged. *)
Theorem C5_links_replaced_in_two_contexts_only : forall inputPath body,
    exists body',
      convertMarkdownLinksToUrls inputPath body = Returns body' None /\
      link_passes inputPath (getAllLinkPaths body) body body' /\
      (forall other,
          link_passes inputPath (getAllLinkPaths body) body other ->
          other = body') /\
      link_steps inputPath (getAllLinkPaths body) body body' /\
      ((forall linkPath,
           In linkPath (getAllLinkPaths body) ->
           ~ occurs (with_parens linkPath) body /\
           ~ occurs (with_spaces linkPath) body) ->
       body' = body).
Proof.
  intros inputPath body. unfold convertMarkdownLinksToUrls.
  destruct (convert_links_returns inputPath (getAllLinkPaths body) body)
    as (body' & Hc).
  exists body'. split; [exact Hc|].
  pose proof (convert_links_passes _ _ _ _ Hc) as Hp.
  split; [exact Hp|].
  split.
  { intros other Ho.
    exact (link_passes_unique _ _ _ _ _ Ho Hp). }
  assert (Hs : link_steps inputPath (getAllLinkPaths body) body body').
  { apply (convert_links_steps inputPath _ (getAllLinkPaths body) body body');
      [apply incl_refl|exact Hc]. }
  split; [exact Hs|].
  intros Hnone. unfold link_steps in Hs.
  destruct Hs as [|b1 b2 (linkPath & url & Hin & _ & Hstep) _];
    [reflexivity|].
  exfalso. destruct (Hnone linkPath Hin) as [Hp' Hsp].
  destruct Hstep as [l r|l r].
  - apply Hp'. exists l, r. reflexivity.
  - apply Hsp. exists l, r. reflexivity.
Qed.

(** The replacement at work, in the simplest case: the one candidate of
    the body stands between parentheses at one place, and its URL between
    spaces is not a link path between spaces.  The body comes back with
    the URL in the place of the link path. *)
Lemma convertMarkdownLinksToUrls_one_link : forall inputPath body linkPath url u r,
    getAllLinkPaths body = [linkPath] ->
    convertPackageLinkToUrl inputPath linkPath = Returns url None ->
    body = u ++ with_parens linkPath ++ r ->
    (forall l r0, body = l ++ with_parens linkPath ++ r0 -> l = u) ->
    ~ occurs (with_spaces linkPath) (u ++ with_parens url ++ r) ->
    convertMarkdownLinksToUrls inputPath body
    = Returns (u ++ with_parens url ++ r) None.
Proof.
  intros inputPath body linkPath url u r Hcands Hurl Hbody Honce Hsp.
  unfold convertMarkdownLinksToUrls. rewrite Hcands.
  destruct (convert_links_returns inputPath [linkPath] body) as (body' & Hc).
  rewrite Hc. f_equal.
  apply (link_passes_unique inputPath [linkPath] body).
  { apply convert_links_passes. exact Hc. }
  apply (link_passes_cons inputPath linkPath [] url body
           (u ++ with_parens url ++ r) (u ++ with_parens url ++ r) _ Hurl).
  - rewrite Hbody. apply replaced_first.
    + intros u1 u2 Hu Hu2.
      destruct (strings_HasPrefix (u2 ++ with_parens linkPath ++ r)
                                  (with_parens linkPath)) eqn:E;
        [|reflexivity].
      exfalso. apply strings_HasPrefix_true in E. destruct E as (r0 & E).
      assert (Hl : u1 = u).
      { apply (Honce u1 r0).
        rewrite Hbody, Hu, <- app_assoc, E. reflexivity. }
      apply (f_equal (@length ascii)) in Hu.
      rewrite Hl, length_app in Hu.
      destruct u2; [congruence|simpl in Hu; lia].
    + apply replaced_none. intros (l & r0 & Hr).
      assert (Hl : u ++ with_parens linkPath ++ l = u).
      { apply (Honce _ r0). rewrite Hbody, Hr, <- !app_assoc. reflexivity. }
      apply (f_equal (@length ascii)) in Hl.
      rewrite !length_app in Hl. simpl in Hl. lia.
  - apply replaced_none. exact Hsp.
  - constructor.
Qed.

Lemma C5_witness :
  exists body',
    convertMarkdownLinksToUrls
      (str "packages/module-vpc/modules/vpc-app/README.md")
      (str "See [a](/modules/x.md) and /modules/x.md or,/modules/x.md")
    = Returns body' None /\
    link_passes (str "packages/module-vpc/modules/vpc-app/README.md")
      (getAllLinkPaths
         (str "See [a](/modules/x.md) and /modules/x.md or,/modules/x.md"))
      (str "See [a](/modules/x.md) and /modules/x.md or,/modules/x.md")
      body' /\
    body' = str "See [a](https://github.com/gruntwork-io/module-vpc/tree/master/modules/x.md) and https://github.com/gruntwork-io/module-vpc/tree/master/modules/x.md or,/modules/x.md".
Proof.
  destruct (C5_links_replaced_in_two_contexts_only
              (str "packages/module-vpc/modules/vpc-app/README.md")
              (str "See [a](/modules/x.md) and /modules/x.md or,/modules/x.md"))
    as (body' & Hc & Hp & _).
  exists body'. split; [exact Hc|]. split; [exact Hp|].
  vm_compute in Hc. injection Hc as <-. reflexivity.
Defined.

Lemma strings_Contains_prefix : forall s substr,
    strings_HasPrefix s substr = true -> strings_Contains s substr = true.
Proof.
  intros s substr H. destruct s; simpl; rewrite H; reflexivity.
Qed.

Lemma getAllLinkPaths_filters : forall body,
    getAllLinkPaths body =
    filter (fun relPath =>
              negb (strings_Contains relPath (str "http://")) &&
              negb (strings_Contains relPath (str "https://")))
           (link_tokens body).
Proof. reflexivity. Qed.

(** No link that carries its scheme is taken as a candidate. *)
Lemma getAllLinkPaths_no_scheme : forall body linkPath,
    In linkPath (getAllLinkPaths body) ->
    strings_Contains linkPath (str "http://") = false /\
    strings_Contains linkPath (str "https://") = false.
Proof.
  intros body linkPath H. rewrite getAllLinkPaths_filters in H.
  apply filter_In in H. destruct H as [_ H].
  apply andb_true_iff in H. destruct H as [H1 H2].
  apply negb_true_iff in H1, H2. auto.
Qed.

Lemma getAllLinkPaths_fully_qualified : forall body,
    forallb is_fully_qualified (link_tokens body) = true ->
    getAllLinkPaths body = [].
Proof.
  intros body H. rewrite getAllLinkPaths_filters.
  induction (link_tokens body) as [|token tokens IH]; [reflexivity|].
  cbn [forallb] in H. apply andb_true_iff in H. destruct H as [Ht H].
  cbn [filter]. rewrite (IH H).
  unfold is_fully_qualified in Ht. apply orb_true_iff in Ht.
  destruct Ht as [Ht|Ht]; apply strings_Contains_prefix in Ht; rewrite Ht.
  - reflexivity.
  - rewrite andb_false_r. reflexivity.
Qed.

(** C4.  A link that contains [http://] or [https://] is never a candidate
    for replacement.  So a body in which every match of the link pattern
    begins with one of the two schemes comes back unchanged, and rewriting
    what came back changes nothing either. *)
Theorem C4_fully_qualified_links_unchanged : forall inputPath body,
    forallb is_fully_qualified (link_tokens body) = true ->
    (forall anyBody linkPath,
        In linkPath (getAllLinkPaths anyBody) ->
        strings_Contains linkPath (str "http://") = false /\
        strings_Contains linkPath (str "https://") = false) /\
    convertMarkdownLinksToUrls inputPath body = Returns body None /\
    (forall body',
        convertMarkdownLinksToUrls inputPath body = Returns body' None ->
        convertMarkdownLinksToUrls inputPath body' = Returns body' None).
Proof.
  intros inputPath body H.
  assert (Hc : convertMarkdownLinksToUrls inputPath body = Returns body None).
  { unfold convertMarkdownLinksToUrls.
    rewrite (getAllLinkPaths_fully_qualified body H). reflexivity. }
  split; [exact getAllLinkPaths_no_scheme|].
  split; [exact Hc|].
  intros body' H'. rewrite Hc in H'. injection H' as <-. exact Hc.
Qed.

Lemma C4_witness :
  forallb is_fully_qualified
          (link_tokens
             (str "See [the guide](https://example.com/docs/guide.md) or http://example.com/a/b now."))
  = true /\
  convertMarkdownLinksToUrls
    (str "packages/module-vpc/modules/vpc-app/README.md")
    (str "See [the guide](https://example.com/docs/guide.md) or http://example.com/a/b now.")
  = Returns
      (str "See [the guide](https://example.com/docs/guide.md) or http://example.com/a/b now.")
      None.
Proof.
  assert (H : forallb is_fully_qualified
                (link_tokens
                   (str "See [the guide](https://example.com/docs/guide.md) or http://example.com/a/b now."))
              = true) by (vm_compute; reflexivity).
  split; [exact H|].
  exact (proj1 (proj2 (C4_fully_qualified_links_unchanged
                         (str "packages/module-vpc/modules/vpc-app/README.md")
                         _ H))).
Defined.

(** The rewriter at work on a package page: the link between parentheses
    and the link between spaces are replaced, the same path after a comma
    is not, and the link with a scheme is left alone. *)
Example convertMarkdownLinksToUrls_example :
  convertMarkdownLinksToUrls
    (str "packages/module-vpc/modules/vpc-app/README.md")
    (str "See [a](/modules/x.md) and /modules/x.md or,/modules/x.md (http://h.io/modules/x.md)")
  = Returns
      (str "See [a](https://github.com/gruntwork-io/module-vpc/tree/master/modules/x.md) and https://github.com/gruntwork-io/module-vpc/tree/master/modules/x.md or,/modules/x.md (http://h.io/modules/x.md)")
      None.
Proof. vm_compute. reflexivity. Qed.

(** ** Further facts and examples *)

Lemma replace_scan_absent : forall old new s limit,
    strings_Contains s old = false ->
    replace_scan old new limit 0 s = s.
Proof.
  intros old new s. induction s as [|a s IH]; intros limit H; [reflexivity|].
  cbn [strings_Contains] in H. apply orb_false_iff in H.
  destruct H as [Hp Hc].
  cbn [replace_scan]. rewrite Hp, (IH _ Hc).
  destruct limit as [[|l]|]; reflexivity.
Qed.

Lemma strings_Replace_absent : forall s old new n,
    old <> [] ->
    strings_Contains s old = false ->
    strings_Replace s old new n = s.
Proof.
  intros s old new n Hne H. unfold strings_Replace.
  destruct (gostring_eqb old new || (n =? 0)%Z); [reflexivity|].
  destruct old as [|b old]; [congruence|].
  apply replace_scan_absent. exact H.
Qed.

(** The plain case of the extension rewriter: [<name>.md] does not occur
    before the last element, and [<dir>/<name>.md] becomes
    [<dir>/<name>.html]. *)
Lemma replaceMd_plain : forall dir name path,
    md_path dir name path ->
    strings_Contains (dir ++ str "/") (name ++ str ".md") = false ->
    replaceMdFileExtensionWithHtmlFileExtension path =
    Returns (dir ++ str "/" ++ name ++ str ".html") None.
Proof.
  intros dir name path H Habsent.
  rewrite (replaceMd_md_path _ _ _ H).
  destruct H as (-> & _ & Hname).
  rewrite (strings_Replace_md_path dir name Hname).
  rewrite strings_Replace_absent;
    [|destruct name; discriminate|exact Habsent].
  rewrite <- app_assoc. reflexivity.
Qed.

(** The replacement is of every occurrence of [<name>.md], so a directory
    named like the file is renamed too. *)
Example replaceMd_renames_directory :
  replaceMdFileExtensionWithHtmlFileExtension (str "out/a.md/a.md")
  = Returns (str "out/a.html/a.html") None.
Proof. vm_compute. reflexivity. Qed.

(** A path with no directory in front of the file does not match the
    markdown pattern. *)
Example replaceMd_needs_a_slash :
  replaceMdFileExtensionWithHtmlFileExtension (str "bar.md")
  = Returns [] (Some (wrong_groups_MARKDOWN (str "bar.md"))).
Proof. vm_compute. reflexivity. Qed.

(** The package pattern on the paths of the tests of the package: a dot in
    the package name keeps the path out. *)
Example isPackageInputPath_examples :
  map isPackageInputPath
      [str "packages/module-vpc/README.md";
       str "packages/package-vpc/README.md";
       str "packages/some_otherPackageName/modules/modname/_docs/README.md";
       str "packages/package-_.vpc/overview.md";
       str "packages5/module-vpc/modules/vpc-app/example.md";
       str "global/help/support.md"]
  = [true; true; true; false; false; false].
Proof. vm_compute. reflexivity. Qed.

Example FindAllStringSubmatch_PACKAGE_example :
  FindAllStringSubmatch PACKAGE_FILE_REGEX_compiled
                        (str "packages/package-vpc/modules/vpc-app")
  = [[str "packages/package-vpc/modules/vpc-app";
      str "package-vpc"; str "/modules/vpc-app"]].
Proof. vm_compute. reflexivity. Qed.

Example getAllLinkPaths_example :
  getAllLinkPaths
    (str "see [x](http://example.com/foo/bar) and (/a/b) or ../c/d.md")
  = [str "/a/b"; str "../c/d.md"].
Proof. vm_compute. reflexivity. Qed.

Example filepath_Clean_examples :
  map filepath_Clean
      [str "/modules/vpc-app/README.md/../../vpc-mgmt"; str "a/../../b/./c//d/..";
       str "/.."; str "a/.."; str ""]
  = [str "/modules/vpc-mgmt"; str "../b/c"; str "/"; str "."; str "."].
Proof. vm_compute. reflexivity. Qed.

(** The three shapes of link on a package page, and a page outside the
    packages. *)
Example convertPackageLinkToUrl_examples :
  map (fun linkPath =>
         convertPackageLinkToUrl
           (str "packages/module-vpc/modules/vpc-app/README.md") linkPath)
      [str "/examples/vpc-app"; str "./"; str "../vpc-peering/vars.tf";
       str "vars.tf"]
  = [Returns (str "https://github.com/gruntwork-io/module-vpc/tree/master/examples/vpc-app") None;
     Returns (str "https://github.com/gruntwork-io/module-vpc/tree/master/modules/vpc-app/README.md") None;
     Returns (str "https://github.com/gruntwork-io/module-vpc/tree/master/modules/vpc-peering/vars.tf") None;
     Returns [] None]
  /\ convertPackageLinkToUrl (str "global/help/support.md") (str "./faq.md")
     = Returns (str "./faq.md") None.
Proof. split; vm_compute; reflexivity. Qed.

(** * Further properties of the code *)

(** ** The package pattern and the two extracting functions *)

(** X1.  [isPackageInputPath] holds exactly of the paths
    [packages/<pkg>/<rest>] with [<pkg>] a non-empty name over [[\w -]] and
    [<rest>] free of line feeds. *)
Theorem X1_isPackageInputPath_shape : forall inputPath,
    isPackageInputPath inputPath = true <->
    exists pkg tail, package_path pkg tail inputPath.
Proof.
  intros inputPath. split.
  - intros H. apply isPackageInputPath_true. exact H.
  - intros H. apply isPackageInputPath_true. exact H.
Qed.

Lemma is_pkg_char_no_slash : forall pkg,
    forallb is_pkg_char pkg = true -> no_slash pkg.
Proof.
  unfold no_slash. induction pkg as [|a pkg IH]; intros H; [reflexivity|].
  simpl in H. apply andb_true_iff in H. destruct H as [Ha H].
  simpl. rewrite (IH H), andb_true_r.
  destruct (ascii_eqb a "/") eqn:E; [|reflexivity].
  apply ascii_eqb_eq in E. subst a. discriminate.
Qed.

(** A text is cut at its first slash in one way only. *)
Lemma first_slash_unique : forall a a' b b',
    no_slash a -> no_slash a' ->
    a ++ "/"%char :: b = a' ++ "/"%char :: b' -> a = a' /\ b = b'.
Proof.
  unfold no_slash.
  induction a as [|x a IH]; intros [|x' a'] b b' Ha Ha' H; simpl in *.
  - injection H as ->. auto.
  - injection H as <- _. rewrite ascii_eqb_refl in Ha'. discriminate.
  - injection H as -> _. rewrite ascii_eqb_refl in Ha. discriminate.
  - injection H as -> H.
    apply andb_true_iff in Ha, Ha'. destruct Ha as [_ Ha], Ha' as [_ Ha'].
    destruct (IH a' b b' Ha Ha' H) as [-> ->]. auto.
Qed.

(** The parts of a package path are determined by the path. *)
Lemma package_path_unique : forall pkg tail pkg' tail' inputPath,
    package_path pkg tail inputPath ->
    package_path pkg' tail' inputPath ->
    pkg = pkg' /\ tail = tail'.
Proof.
  intros pkg tail pkg' tail' inputPath (-> & _ & Hp & _) (H & _ & Hp' & _).
  apply app_inv_head in H.
  apply (first_slash_unique pkg pkg' tail tail');
    auto using is_pkg_char_no_slash.
Qed.

(** X2.  On a package path the two extracting functions return, with nil
    errors, a package name and a relative path that put together behind
    [packages/] give the path back; the name is not empty and is made of
    [[\w -]] characters, the relative path begins with a slash. *)
Theorem X2_package_name_and_relative_path_recompose : forall inputPath,
    isPackageInputPath inputPath = true ->
    exists packageName relPath,
      getPackageName inputPath = Returns packageName None /\
      getPathRelativeToPackageRoot inputPath = Returns relPath None /\
      inputPath = str "packages/" ++ packageName ++ relPath /\
      packageName <> [] /\
      forallb is_pkg_char packageName = true /\
      strings_HasPrefix relPath (str "/") = true.
Proof.
  intros inputPath H. apply isPackageInputPath_true in H.
  destruct H as (pkg & tail & H).
  exists pkg, (str "/" ++ tail).
  rewrite (getPackageName_package _ _ _ H).
  rewrite (getPathRelativeToPackageRoot_package _ _ _ H).
  destruct H as (-> & Hne & Hp & _). auto 10.
Qed.

Lemma X2_witness :
  isPackageInputPath (str "packages/package-vpc/modules/vpc-app") = true /\
  exists packageName relPath,
    getPackageName (str "packages/package-vpc/modules/vpc-app")
    = Returns packageName None /\
    getPathRelativeToPackageRoot (str "packages/package-vpc/modules/vpc-app")
    = Returns relPath None /\
    str "packages/package-vpc/modules/vpc-app"
    = str "packages/" ++ packageName ++ relPath.
Proof.
  split; [reflexivity|].
  destruct (X2_package_name_and_relative_path_recompose
              (str "packages/package-vpc/modules/vpc-app") eq_refl)
    as (packageName & relPath & H1 & H2 & H3 & _).
  exists packageName, relPath. auto.
Defined.

(** X3.  On a path that is not a package path both extracting functions
    return the empty string and the error
    [WrongNumberOfCaptureGroupsReturnedFromPageRegEx] with the path, the
    name of the pattern and the pattern; they do not panic. *)
Theorem X3_extracting_functions_fail_outside_packages : forall inputPath,
    isPackageInputPath inputPath = false ->
    getPackageName inputPath
    = Returns [] (Some (WrongNumberOfCaptureGroupsReturnedFromPageRegEx
                          inputPath (str "PACKAGE_FILE_REGEX")
                          PACKAGE_FILE_REGEX)) /\
    getPathRelativeToPackageRoot inputPath
    = Returns [] (Some (WrongNumberOfCaptureGroupsReturnedFromPageRegEx
                          inputPath (str "PACKAGE_FILE_REGEX")
                          PACKAGE_FILE_REGEX)).
Proof.
  intros inputPath H. unfold isPackageInputPath, MatchString in H.
  destruct (search PACKAGE_FILE_REGEX_compiled 0 inputPath) eqn:E;
    [discriminate|].
  unfold getPackageName, getPathRelativeToPackageRoot.
  rewrite (FindAll_none _ _ E). split; reflexivity.
Qed.

Lemma X3_witness :
  isPackageInputPath (str "global/help/support.md") = false /\
  getPackageName (str "global/help/support.md")
  = Returns [] (Some (WrongNumberOfCaptureGroupsReturnedFromPageRegEx
                        (str "global/help/support.md")
                        (str "PACKAGE_FILE_REGEX") PACKAGE_FILE_REGEX)).
Proof.
  split; [reflexivity|].
  exact (proj1 (X3_extracting_functions_fail_outside_packages
                  (str "global/help/support.md") eq_refl)).
Defined.

(** X4.  A path with a line feed in it is not a package path. *)
Theorem X4_line_feed_is_no_package_path : forall inputPath,
    In "010"%char inputPath ->
    isPackageInputPath inputPath = false.
Proof.
  intros inputPath Hin.
  destruct (isPackageInputPath inputPath) eqn:E; [|reflexivity].
  apply isPackageInputPath_true in E.
  destruct E as (pkg & tail & -> & _ & Hp & Ht).
  exfalso.
  apply in_app_or in Hin. destruct Hin as [Hin|Hin].
  { simpl in Hin. repeat destruct Hin as [Hin|Hin]; try discriminate.
    exact Hin. }
  apply in_app_or in Hin. destruct Hin as [Hin|Hin].
  { rewrite forallb_forall in Hp. apply Hp in Hin. discriminate. }
  destruct Hin as [Hin|Hin]; [discriminate|].
  rewrite forallb_forall in Ht. apply Ht in Hin. discriminate.
Qed.

Lemma X4_witness :
  In "010"%char (str "packages/module-vpc/modules" ++ ["010"%char] ++ str "x") /\
  isPackageInputPath
    (str "packages/module-vpc/modules" ++ ["010"%char] ++ str "x") = false.
Proof.
  assert (H : In "010"%char
                 (str "packages/module-vpc/modules" ++ ["010"%char] ++ str "x")).
  { apply in_or_app. right. left. reflexivity. }
  split; [exact H|].
  exact (X4_line_feed_is_no_package_path _ H).
Defined.

(** X5.  A directory under [packages/] whose name has a character outside
    [[\w -]] (a dot, say) does not make a package path. *)
Theorem X5_package_name_outside_class : forall pkg tail,
    no_slash pkg ->
    forallb is_pkg_char pkg = false ->
    isPackageInputPath (str "packages/" ++ pkg ++ str "/" ++ tail) = false.
Proof.
  intros pkg tail Hns Hbad.
  destruct (isPackageInputPath _) eqn:E; [|reflexivity].
  apply isPackageInputPath_true in E.
  destruct E as (pkg' & tail' & H & _ & Hp' & _).
  apply app_inv_head in H.
  destruct (first_slash_unique pkg pkg' tail tail' Hns
              (is_pkg_char_no_slash pkg' Hp') H) as [-> _].
  congruence.
Qed.

Lemma X5_witness :
  no_slash (str "package-_.vpc") /\
  forallb is_pkg_char (str "package-_.vpc") = false /\
  isPackageInputPath (str "packages/package-_.vpc/overview.md") = false.
Proof.
  split; [reflexivity|]. split; [reflexivity|].
  exact (X5_package_name_outside_class
           (str "package-_.vpc") (str "overview.md") eq_refl eq_refl).
Defined.

(** ** The link resolver *)

(** X6.  On a package page a link that begins with a slash resolves to the
    URL of the package followed by the link as it is. *)
Theorem X6_absolute_link : forall pkg tail inputPath linkPath,
    package_path pkg tail inputPath ->
    strings_HasPrefix linkPath (str "/") = true ->
    convertPackageLinkToUrl inputPath linkPath
    = Returns (package_url pkg ++ linkPath) None.
Proof.
  intros pkg tail inputPath linkPath H Hl.
  rewrite (convertPackageLinkToUrl_package _ _ _ linkPath H).
  apply strings_HasPrefix_true in Hl. destruct Hl as (r & ->).
  reflexivity.
Qed.

Lemma X6_witness :
  package_path (str "module-vpc") (str "modules/vpc-app/README.md")
               (str "packages/module-vpc/modules/vpc-app/README.md") /\
  convertPackageLinkToUrl
    (str "packages/module-vpc/modules/vpc-app/README.md")
    (str "/examples/vpc-app")
  = Returns
      (str "https://github.com/gruntwork-io/module-vpc/tree/master/examples/vpc-app")
      None.
Proof.
  assert (H : package_path (str "module-vpc") (str "modules/vpc-app/README.md")
                (str "packages/module-vpc/modules/vpc-app/README.md")).
  { unfold package_path. repeat split; try reflexivity. discriminate. }
  split; [exact H|].
  exact (X6_absolute_link _ _ _ (str "/examples/vpc-app") H eq_refl).
Defined.

Lemma strings_Replace_same : forall s old n, strings_Replace s old old n = s.
Proof.
  intros s old n. unfold strings_Replace.
  replace (gostring_eqb old old) with true
    by (symmetry; apply gostring_eqb_eq; reflexivity).
  reflexivity.
Qed.

Lemma convert_links_outside_packages : forall inputPath linkPaths body,
    isPackageInputPath inputPath = false ->
    convert_links inputPath linkPaths body = Returns body None.
Proof.
  intros inputPath linkPaths body H.
  induction linkPaths as [|linkPath linkPaths IH]; [reflexivity|].
  cbn [convert_links]. unfold convertPackageLinkToUrl. rewrite H.
  cbn [try_call]. rewrite !strings_Replace_same. exact IH.
Qed.

(** X7.  On a page that is not under a package, the rewriter of links
    returns the body as it is, with a nil error, whatever the body. *)
Theorem X7_body_unchanged_outside_packages : forall inputPath body,
    isPackageInputPath inputPath = false ->
    convertMarkdownLinksToUrls inputPath body = Returns body None.
Proof.
  intros inputPath body H. unfold convertMarkdownLinksToUrls.
  apply convert_links_outside_packages. exact H.
Qed.

Lemma X7_witness :
  isPackageInputPath (str "global/help/support.md") = false /\
  convertMarkdownLinksToUrls (str "global/help/support.md")
    (str "See [the FAQ](./faq.md) and /introduction/tools.md here.")
  = Returns (str "See [the FAQ](./faq.md) and /introduction/tools.md here.")
            None.
Proof.
  split; [reflexivity|].
  exact (X7_body_unchanged_outside_packages
           (str "global/help/support.md")
           (str "See [the FAQ](./faq.md) and /introduction/tools.md here.")
           eq_refl).
Defined.

(** ** Cleaned paths *)

Lemma split_on_no_sep : forall sep s,
    Forall (fun e => forallb (fun a => negb (ascii_eqb a sep)) e = true)
           (split_on sep s).
Proof.
  intros sep s. induction s as [|a s IH]; simpl.
  - constructor; [reflexivity|constructor].
  - destruct (ascii_eqb a sep) eqn:E.
    + constructor; [reflexivity|exact IH].
    + destruct (split_on sep s) as [|e es].
      * constructor; [|constructor]. simpl. rewrite E. reflexivity.
      * inversion IH as [|? ? He Hes]; subst.
        constructor; [|exact Hes]. simpl. rewrite E. exact He.
Qed.

Lemma clean_step_rooted : forall out e,
    Forall is_path_element out ->
    no_slash e ->
    exists out',
      clean_step true (out, 0) e = (out', 0) /\ Forall is_path_element out'.
Proof.
  intros out e Hout He. unfold clean_step.
  destruct (gostring_eqb e []) eqn:E1; [eauto|].
  destruct (gostring_eqb e (str ".")) eqn:E2; [eauto|].
  destruct (gostring_eqb e (str "..")) eqn:E3.
  - destruct (0 <? length out);
      [|exists out; split; [reflexivity|exact Hout]].
    exists (tl out). split; [reflexivity|].
    destruct out; [constructor|]. inversion Hout; assumption.
  - exists (e :: out). split; [reflexivity|].
    constructor; [|exact Hout].
    unfold is_path_element. repeat split; try exact He;
      intros ->; discriminate.
Qed.

Lemma clean_fold_rooted : forall elems out,
    Forall is_path_element out ->
    Forall no_slash elems ->
    exists out',
      fold_left (clean_step true) elems (out, 0) = (out', 0) /\
      Forall is_path_element out'.
Proof.
  induction elems as [|e elems IH]; intros out Hout He; cbn [fold_left].
  - eauto.
  - inversion He as [|? ? He1 He2]; subst.
    destruct (clean_step_rooted out e Hout He1) as (out1 & -> & Hout1).
    apply IH; assumption.
Qed.

(** A path that begins with a slash is cleaned into a slash followed by
    names joined by slashes: no empty element, no [.], no [..]. *)
Lemma filepath_Clean_rooted : forall path,
    strings_HasPrefix path (str "/") = true ->
    exists elems,
      filepath_Clean path = str "/" ++ strings_Join elems (str "/") /\
      Forall is_path_element elems.
Proof.
  intros path H. unfold filepath_Clean.
  destruct path as [|a path]; [discriminate|]. rewrite H.
  destruct (clean_fold_rooted (split_on "/" (a :: path)) [] (Forall_nil _)
                              (split_on_no_sep "/" (a :: path)))
    as (out & -> & Hout).
  exists (rev out). split; [reflexivity|].
  apply Forall_rev. exact Hout.
Qed.

(** X8.  On a package page the URL of a link that begins with [../] is the
    URL of the package followed by a slash and by names joined by slashes:
    the path is cleaned, so no [..], no [.] and no empty element is left in
    it, however many [../] the link has. *)
Theorem X8_parent_relative_link_is_clean :
  forall pkg tail inputPath linkPath,
    package_path pkg tail inputPath ->
    strings_HasPrefix linkPath (str "../") = true ->
    exists elems,
      convertPackageLinkToUrl inputPath linkPath
      = Returns (package_url pkg ++ str "/" ++ strings_Join elems (str "/"))
                None /\
      Forall is_path_element elems.
Proof.
  intros pkg tail inputPath linkPath H Hl.
  rewrite (convertPackageLinkToUrl_package _ _ _ linkPath H), Hl.
  unfold filepath_Join.
  destruct (filepath_Clean_rooted
              (strings_Join [str "/" ++ tail; str "../"; linkPath] (str "/"))
              eq_refl) as (elems & -> & He).
  exists elems. split; [reflexivity|exact He].
Qed.

Lemma X8_witness :
  package_path (str "module-vpc") (str "modules/vpc-app/README.md")
               (str "packages/module-vpc/modules/vpc-app/README.md") /\
  strings_HasPrefix (str "../../../../LICENSE.txt") (str "../") = true /\
  exists elems,
    convertPackageLinkToUrl
      (str "packages/module-vpc/modules/vpc-app/README.md")
      (str "../../../../LICENSE.txt")
    = Returns (package_url (str "module-vpc") ++ str "/" ++
               strings_Join elems (str "/")) None /\
    Forall is_path_element elems.
Proof.
  assert (H : package_path (str "module-vpc") (str "modules/vpc-app/README.md")
                (str "packages/module-vpc/modules/vpc-app/README.md")).
  { unfold package_path. repeat split; try reflexivity. discriminate. }
  split; [exact H|]. split; [reflexivity|].
  exact (X8_parent_relative_link_is_clean
           _ _ _ (str "../../../../LICENSE.txt") H eq_refl).
Defined.

(** ** The extension rewriter *)

(** A text is cut at its last slash, when it has one. *)
Lemma last_slash : forall s,
    no_slash s \/ exists a b, s = a ++ "/"%char :: b /\ no_slash b.
Proof.
  unfold no_slash. induction s as [|c s IH]; [left; reflexivity|].
  destruct IH as [IH|(a & b & -> & Hb)].
  - destruct (ascii_eqb c "/") eqn:E.
    + apply ascii_eqb_eq in E. subst c. right. exists [], s. auto.
    + left. simpl. rewrite E, IH. reflexivity.
  - right. exists (c :: a), b. auto.
Qed.

(** A match of the markdown pattern is a path [<dir>/<name>.md] of one
    line. *)
Lemma lang_MARKDOWN_md_path : forall pos w rest,
    lang MARKDOWN_FILE_PATH_REGEX_compiled pos w rest ->
    pos = 0 /\ rest = [] /\ exists dir name, md_path dir name w.
Proof.
  intros pos w rest H.
  unfold MARKDOWN_FILE_PATH_REGEX_compiled in H. cbn [lang Plus Chr Dot] in H.
  destruct H as (w0 & w1 & -> & (-> & ->) & H).
  destruct H as (wd & w2 & -> & Hd & H).
  destruct H as (ws & w3 & -> & (b & -> & Hb) & H).
  destruct H as (wn & w4 & -> & Hn & H).
  destruct H as (wl & we & -> & Hl & (-> & ->)).
  apply lang_Lit in Hl. subst wl.
  apply star_lang_Class in Hd, Hn.
  apply ascii_eqb_eq in Hb. subst b.
  split; [reflexivity|]. split; [reflexivity|].
  assert (Hnl : forallb not_newline
                  ([] ++ wd ++ ["/"%char] ++ wn ++ str ".md" ++ []) = true).
  { rewrite app_nil_r. cbn [app]. rewrite !forallb_app, Hd. cbn [forallb].
    rewrite forallb_app, Hn. reflexivity. }
  destruct (last_slash wn) as [Hns|(a & c & -> & Hc)].
  - exists wd, wn. unfold md_path.
    split; [reflexivity|]. split; [exact Hnl|exact Hns].
  - exists (wd ++ "/"%char :: a), c. unfold md_path.
    split; [|split; [exact Hnl|exact Hc]].
    simpl. rewrite <- !app_assoc. reflexivity.
Qed.

Lemma replaceMd_cases : forall path,
    (exists dir name,
        md_path dir name path /\
        replaceMdFileExtensionWithHtmlFileExtension path
        = Returns (strings_Replace path (name ++ str ".md")
                                   (name ++ str ".html") (-1)) None) \/
    ((forall dir name, ~ md_path dir name path) /\
     replaceMdFileExtensionWithHtmlFileExtension path
     = Returns [] (Some (wrong_groups_MARKDOWN path))).
Proof.
  intros path.
  destruct (search MARKDOWN_FILE_PATH_REGEX_compiled 0 path) as [c|] eqn:E.
  - left. apply search_sound in E.
    destruct E as (pre & w & s' & -> & HL & _).
    apply lang_MARKDOWN_md_path in HL.
    destruct HL as (Hpos & -> & dir & name & Hmd).
    destruct pre; [|discriminate]. simpl. rewrite app_nil_r.
    exists dir, name. split; [exact Hmd|].
    apply (replaceMd_md_path dir name w Hmd).
  - right. split.
    + intros dir name Hmd.
      pose proof (search_head _ _ _ _ (match_at_MARKDOWN _ _ _ Hmd)) as Hs.
      congruence.
    + unfold replaceMdFileExtensionWithHtmlFileExtension.
      rewrite (FindAll_none _ _ E). reflexivity.
Qed.

(** X9.  The extension rewriter splits all paths in two: on a path
    [<dir>/<name>.md] of one line it returns, with a nil error, the path
    with every [<name>.md] replaced by [<name>.html]; on any other path it
    returns the empty string and its error.  It never panics. *)
Theorem X9_replaceMd_succeeds_exactly_on_md_paths : forall path,
    (exists dir name,
        md_path dir name path /\
        replaceMdFileExtensionWithHtmlFileExtension path
        = Returns (strings_Replace path (name ++ str ".md")
                                   (name ++ str ".html") (-1)) None) \/
    ((forall dir name, ~ md_path dir name path) /\
     replaceMdFileExtensionWithHtmlFileExtension path
     = Returns [] (Some (wrong_groups_MARKDOWN path))).
Proof. exact replaceMd_cases. Qed.

(** X10.  When [<name>.md] does not occur in [<dir>/], the extension
    rewriter turns [<dir>/<name>.md] into [<dir>/<name>.html]. *)
Theorem X10_replaceMd_replaces_the_extension : forall dir name path,
    md_path dir name path ->
    strings_Contains (dir ++ str "/") (name ++ str ".md") = false ->
    replaceMdFileExtensionWithHtmlFileExtension path
    = Returns (dir ++ str "/" ++ name ++ str ".html") None.
Proof.
  intros dir name path H Habsent. exact (replaceMd_plain dir name path H Habsent).
Qed.

Lemma X10_witness :
  md_path (str "/out/help") (str "support") (str "/out/help/support.md") /\
  strings_Contains (str "/out/help" ++ str "/") (str "support" ++ str ".md")
  = false /\
  replaceMdFileExtensionWithHtmlFileExtension (str "/out/help/support.md")
  = Returns (str "/out/help/support.html") None.
Proof.
  assert (H : md_path (str "/out/help") (str "support")
                      (str "/out/help/support.md")).
  { unfold md_path. repeat split; reflexivity. }
  split; [exact H|]. split; [reflexivity|].
  exact (X10_replaceMd_replaces_the_extension _ _ _ H eq_refl).
Defined.

(** X11.  A path without a slash is refused by the extension rewriter, even
    when it ends in [.md]. *)
Theorem X11_replaceMd_needs_a_directory : forall path,
    no_slash path ->
    replaceMdFileExtensionWithHtmlFileExtension path
    = Returns [] (Some (wrong_groups_MARKDOWN path)).
Proof.
  intros path Hns.
  destruct (replaceMd_cases path)
    as [(dir & name & (-> & _) & _)|[_ H]]; [|exact H].
  exfalso. unfold no_slash in Hns.
  rewrite forallb_app in Hns. apply andb_true_iff in Hns.
  destruct Hns as [_ Hns]. simpl in Hns. discriminate.
Qed.

Lemma X11_witness :
  no_slash (str "index.md") /\
  replaceMdFileExtensionWithHtmlFileExtension (str "index.md")
  = Returns [] (Some (wrong_groups_MARKDOWN (str "index.md"))).
Proof.
  split; [reflexivity|].
  exact (X11_replaceMd_needs_a_directory (str "index.md") eq_refl).
Defined.

(** ** The candidates of the link rewriter *)

Lemma match_at_first : forall r pos s c,
    match_at r pos s = Some c ->
    exists w s' regs,
      s = w ++ s' /\ lang r pos w s' /\
      c = Some (pos, pos + length w) :: regs.
Proof.
  intros r pos s c H. unfold match_at in H. cbn [rmatch] in H.
  apply rmatch_sound in H.
  destruct H as (w & s' & c' & -> & H & Hc & Hx).
  unfold accept in Hx. injection Hx as <-.
  rewrite repeat_length in Hc.
  destruct c' as [|x c']; [discriminate|].
  exists w, s', c'. auto.
Qed.

Lemma search_first : forall r s pos c,
    search r pos s = Some c ->
    exists pre w s' regs,
      s = pre ++ w ++ s' /\ lang r (pos + length pre) w s' /\
      c = Some (pos + length pre, pos + length pre + length w) :: regs.
Proof.
  intros r s. induction s as [|a s IH]; intros pos c; simpl;
    destruct (match_at r pos _) as [y|] eqn:E; intros H; try discriminate.
  - injection H as ->.
    apply match_at_first in E. destruct E as (w & s' & regs & -> & HL & ->).
    exists [], w, s', regs. simpl. rewrite Nat.add_0_r. auto.
  - injection H as ->.
    apply match_at_first in E. destruct E as (w & s' & regs & -> & HL & ->).
    exists [], w, s', regs. simpl. rewrite Nat.add_0_r. auto.
  - apply IH in H. destruct H as (pre & w & s' & regs & -> & HL & ->).
    exists (a :: pre), w, s', regs. simpl.
    rewrite <- Nat.add_succ_comm. auto.
Qed.

(** Every match that [allMatches] reports is a match of the pattern at the
    place of the text that its bounds give. *)
Lemma allMatches_sound : forall r text fuel pre s prev,
    text = pre ++ s ->
    Forall (fun c => exists l w r' regs,
                text = l ++ w ++ r' /\ lang r (length l) w r' /\
                c = Some (length l, length l + length w) :: regs)
           (allMatches fuel r (length pre) s prev).
Proof.
  intros r text fuel.
  induction fuel as [|fuel IH]; intros pre s prev Htext; [constructor|].
  rewrite allMatches_S.
  destruct (search r (length pre) s) as [c|] eqn:E; [|constructor].
  apply search_first in E.
  destruct E as (pre1 & w & s' & regs & -> & HL & ->).
  assert (Hc : exists l w0 r' regs0,
             text = l ++ w0 ++ r' /\ lang r (length l) w0 r' /\
             Some (length pre + length pre1,
                   length pre + length pre1 + length w) :: regs
             = Some (length l, length l + length w0) :: regs0).
  { exists (pre ++ pre1), w, s', regs.
    rewrite length_app, Htext, <- app_assoc. auto. }
  cbn [whole].
  destruct (length pre + length pre1 + length w =? length pre) eqn:Ee.
  - assert (Hrest :
              Forall (fun c => exists l w0 r' regs0,
                          text = l ++ w0 ++ r' /\ lang r (length l) w0 r' /\
                          c = Some (length l, length l + length w0) :: regs0)
                     match pre1 ++ w ++ s' with
                     | [] => []
                     | _ :: t =>
                         allMatches fuel r (S (length pre)) t
                           (Some (length pre + length pre1 + length w))
                     end).
    { destruct (pre1 ++ w ++ s') as [|a t] eqn:Et; [constructor|].
      replace (S (length pre)) with (length (pre ++ [a]))
        by (rewrite length_app; simpl; lia).
      apply IH. rewrite Htext, <- app_assoc. reflexivity. }
    destruct prev as [p|];
      [destruct (negb (length pre + length pre1 =? p))|];
      try constructor; assumption.
  - constructor; [exact Hc|].
    replace (length pre + length pre1 + length w)
      with (length (pre ++ pre1 ++ w)) at 1
      by (rewrite !length_app; lia).
    apply IH.
    replace (length pre + length pre1 + length w - length pre)
      with (length (pre1 ++ w)) by (rewrite length_app; lia).
    rewrite Htext, (app_assoc pre1 w s'), skipn_app, skipn_all, Nat.sub_diag.
    simpl. rewrite <- !app_assoc. reflexivity.
Qed.

(** The text of a match that [FindAllStringSubmatch] reports is a piece of
    the text searched and a word of the pattern. *)
Lemma FindAllStringSubmatch_sound : forall r text submatch,
    In submatch (FindAllStringSubmatch r text) ->
    exists l w r',
      text = l ++ w ++ r' /\ lang r (length l) w r' /\
      nth 0 submatch [] = w.
Proof.
  intros r text submatch H. unfold FindAllStringSubmatch in H.
  apply in_map_iff in H. destruct H as (c & <- & Hin).
  pose proof (allMatches_sound r text (S (S (length text))) [] text None
                               eq_refl) as Hall.
  rewrite Forall_forall in Hall. apply Hall in Hin.
  destruct Hin as (l & w & r' & regs & Htext & HL & ->).
  exists l, w, r'. split; [exact Htext|]. split; [exact HL|].
  cbn [submatch_strings map nth]. rewrite Htext.
  apply substring_middle.
Qed.

Lemma is_name_char_path : forall a, is_name_char a = true -> is_path_char a = true.
Proof.
  intros a. unfold is_name_char, is_path_char.
  destruct (is_upper a), (is_lower a), (is_digit a), (ascii_eqb a "_"),
    (ascii_eqb a "/"), (ascii_eqb a "."), (ascii_eqb a "-");
    simpl; intros H; congruence.
Qed.

(** The words of the link pattern. *)
Lemma lang_FILE_PATHS : forall pos w rest,
    lang FILE_PATHS_REGEX_compiled pos w rest ->
    (exists scheme x,
        w = scheme ++ "/"%char :: x /\
        (scheme = [] \/ scheme = str "http:/" \/ scheme = str "https:/") /\
        forallb is_path_char x = true) \/
    (exists x y,
        w = x ++ "/"%char :: y /\
        forallb is_path_char x = true /\ forallb is_name_char y = true).
Proof.
  intros pos w rest H.
  unfold FILE_PATHS_REGEX_compiled in H. cbn [lang Plus Chr Opt] in H.
  destruct H as [H|H].
  - left. destruct H as (ws & wp & -> & Hs & H).
    destruct H as (wa & wb & -> & (a & -> & Ha) & H).
    destruct H as (wc & wd & -> & (c & -> & Hc) & Hd).
    apply star_lang_Class in Hd. apply ascii_eqb_eq in Ha. subst a.
    exists ws, ([c] ++ wd). split; [reflexivity|]. split.
    + destruct Hs as [[Hs|Hs]|Hs].
      * apply lang_Lit in Hs. auto.
      * apply lang_Lit in Hs. auto.
      * auto.
    + simpl. rewrite Hc. exact Hd.
  - right. destruct H as (wx & wr & -> & Hx & H).
    destruct Hx as (wa & wb & -> & (a & -> & Ha) & Hb).
    apply star_lang_Class in Hb.
    destruct H as (wc & wy & -> & (c & -> & Hc) & Hy).
    apply star_lang_Class in Hy. apply ascii_eqb_eq in Hc. subst c.
    exists ([a] ++ wb), wy. split; [reflexivity|]. split; [|exact Hy].
    simpl. rewrite Ha. exact Hb.
Qed.

Lemma getAllLinkPaths_shape : forall body linkPath,
    In linkPath (getAllLinkPaths body) ->
    occurs linkPath body /\
    forallb is_path_char linkPath = true /\
    In "/"%char linkPath.
Proof.
  intros body linkPath H.
  destruct (getAllLinkPaths_no_scheme body linkPath H) as [Hhttp Hhttps].
  rewrite getAllLinkPaths_filters in H. apply filter_In in H.
  destruct H as [H _]. unfold link_tokens in H.
  apply in_map_iff in H. destruct H as (submatch & Heq & Hin).
  apply FindAllStringSubmatch_sound in Hin.
  destruct Hin as (l & w & r' & Htext & HL & Hw).
  assert (Hlw : linkPath = w) by (rewrite <- Heq; exact Hw).
  rewrite Hlw in *. clear Hlw Heq Hw submatch linkPath.
  split; [exists l, r'; exact Htext|].
  apply lang_FILE_PATHS in HL.
  destruct HL as [(scheme & x & -> & Hs & Hx)|(x & y & -> & Hx & Hy)].
  - destruct Hs as [ -> | [ -> | -> ] ].
    + split; [simpl; exact Hx|left; reflexivity].
    + exfalso.
      rewrite (strings_Contains_prefix (str "http:/" ++ "/"%char :: x)
                                       (str "http://")) in Hhttp;
        [discriminate|reflexivity].
    + exfalso.
      rewrite (strings_Contains_prefix (str "https:/" ++ "/"%char :: x)
                                       (str "https://")) in Hhttps;
        [discriminate|reflexivity].
  - split.
    + rewrite forallb_app, Hx. simpl.
      apply forallb_forall. intros a Ha.
      apply is_name_char_path.
      rewrite forallb_forall in Hy. apply Hy. exact Ha.
    + apply in_or_app. right. left. reflexivity.
Qed.

(** X12.  Every candidate that the rewriter takes from a body is a piece
    of the body, is made of the characters [[A-Za-z0-9_/.-]] only and has a
    slash in it; so no candidate holds a space, a parenthesis or a
    colon. *)
Theorem X12_candidates_are_path_tokens_of_the_body : forall body linkPath,
    In linkPath (getAllLinkPaths body) ->
    occurs linkPath body /\
    forallb is_path_char linkPath = true /\
    In "/"%char linkPath.
Proof. exact getAllLinkPaths_shape. Qed.

Lemma X12_witness :
  In (str "../c/d.md")
     (getAllLinkPaths
        (str "see [x](http://example.com/foo/bar) and (/a/b) or ../c/d.md")) /\
  occurs (str "../c/d.md")
         (str "see [x](http://example.com/foo/bar) and (/a/b) or ../c/d.md").
Proof.
  assert (H : In (str "../c/d.md")
                 (getAllLinkPaths
                    (str "see [x](http://example.com/foo/bar) and (/a/b) or ../c/d.md"))).
  { vm_compute. right. left. reflexivity. }
  split; [exact H|].
  exact (proj1 (X12_candidates_are_path_tokens_of_the_body _ _ H)).
Defined.

(** ** The title of a page *)

Lemma split_on_app_sep : forall sep a b,
    split_on sep (a ++ sep :: b) = split_on sep a ++ split_on sep b.
Proof.
  intros sep a b. induction a as [|x a IH]; simpl.
  - rewrite ascii_eqb_refl. reflexivity.
  - destruct (ascii_eqb x sep); [rewrite IH; reflexivity|].
    rewrite IH. destruct (split_on_first sep a) as (e & es & ->).
    reflexivity.
Qed.

Lemma split_on_without_sep : forall sep s,
    forallb (fun a => negb (ascii_eqb a sep)) s = true ->
    split_on sep s = [s].
Proof.
  intros sep s. induction s as [|a s IH]; intros H; [reflexivity|].
  simpl in H. apply andb_true_iff in H. destruct H as [Ha H].
  apply negb_true_iff in Ha. simpl. rewrite Ha, (IH H). reflexivity.
Qed.

(** [filepath.Base] of a path that ends in a name is the name. *)
Lemma filepath_Base_name : forall prefix name,
    (prefix = [] \/ exists dir, prefix = dir ++ str "/") ->
    name <> [] ->
    no_slash name ->
    filepath_Base (prefix ++ name) = name.
Proof.
  intros prefix name Hp Hne Hns. unfold filepath_Base.
  destruct (prefix ++ name) as [|c rest] eqn:E.
  { destruct prefix; [simpl in E; congruence|discriminate]. }
  rewrite <- E. clear E c rest.
  assert (Hsplit : exists es, split_on "/" (prefix ++ name) = es ++ [name]).
  { destruct Hp as [->|(dir & ->)].
    - exists []. simpl. apply split_on_without_sep. exact Hns.
    - exists (split_on "/" dir). rewrite <- app_assoc.
      change (str "/" ++ name) with ("/"%char :: name).
      rewrite split_on_app_sep, (split_on_without_sep "/" name Hns).
      reflexivity. }
  destruct Hsplit as (es & ->).
  rewrite filter_app. cbn [filter].
  replace (negb (gostring_eqb name [])) with true
    by (destruct name; [congruence|reflexivity]).
  destruct (filter _ es) as [|e es']; [reflexivity|].
  cbn [app]. apply last_last.
Qed.

Section PageTitle.

Variable Folder : Type.
Variable strings_Title : gostring -> gostring.

(** X13.  The title of a page is [strings.Title] of the output file name up
    to its first dot: for an output path [<stem>.<rest>] or
    [<dir>/<stem>.<rest>], with no dot in [<stem>] and no slash in
    [<stem>.<rest>], it is the title-cased [<stem>], whatever the
    directory and whatever comes after the dot. *)
Theorem X13_title_is_stem_of_output_file :
  forall (p : Page Folder) prefix stem rest,
    OutputPath (file p) = prefix ++ stem ++ str "." ++ rest ->
    (prefix = [] \/ exists dir, prefix = dir ++ str "/") ->
    no_slash stem ->
    forallb (fun a => negb (ascii_eqb a ".")) stem = true ->
    no_slash rest ->
    getTitle strings_Title p = Returns (strings_Title stem) None.
Proof.
  intros p prefix stem rest Hout Hp Hs Hd Hr.
  unfold getTitle. rewrite Hout.
  rewrite (filepath_Base_name prefix (stem ++ str "." ++ rest) Hp).
  - change (stem ++ str "." ++ rest) with (stem ++ "."%char :: rest).
    rewrite split_on_app_sep, (split_on_without_sep "." stem Hd).
    reflexivity.
  - destruct stem; discriminate.
  - unfold no_slash in *. rewrite forallb_app, Hs. simpl. exact Hr.
Qed.

End PageTitle.

Lemma X13_witness :
  getTitle (fun t => t)
           (example_page (str "packages/module-vpc/vpc-app/example.v2.md"))
  = Returns (str "example") None.
Proof.
  exact (X13_title_is_stem_of_output_file
           unit (fun t => t)
           (example_page (str "packages/module-vpc/vpc-app/example.v2.md"))
           (str "packages/module-vpc/vpc-app/") (str "example") (str "v2.md")
           eq_refl
           (or_intror (ex_intro _ (str "packages/module-vpc/vpc-app") eq_refl))
           eq_refl eq_refl eq_refl).
Defined.

(** ** Populating and writing a page *)

Lemma convertMarkdownLinksToUrls_outside_packages : forall inputPath body,
    isPackageInputPath inputPath = false ->
    convertMarkdownLinksToUrls inputPath body = Returns body None.
Proof.
  intros inputPath body H. unfold convertMarkdownLinksToUrls.
  apply convert_links_outside_packages. exact H.
Qed.

Section PageMethods.

Variable Folder : Type.
Variable file_ReadFile : gostring -> outcome gostring.
Variable file_WriteFile : gostring -> gostring -> option error.
Variable github_flavored_markdown_Markdown : gostring -> gostring.
Variable strings_Title : gostring -> gostring.
Variable Template : Type.
Variable template_Parse : gostring -> gostring -> outcome Template.
Variable template_Execute :
  Template -> gostring -> gostring -> gostring -> gostring.
Variable GetAsNavTreeHtml : Folder -> Page Folder -> gostring.

(** X14.  When the source of the page cannot be read,
    [PopulateAllProperties] returns the error of the read.  The page keeps
    its paths, its HTML body and its GitHub URL as they were; its markdown
    body is what the failed read returned. *)
Theorem X14_populate_returns_read_error : forall (p : Page Folder) body err,
    file_ReadFile (FullInputPath (file p)) = Returns body (Some err) ->
    exists p',
      PopulateAllProperties file_ReadFile github_flavored_markdown_Markdown
                            strings_Title p
      = Returns p' (Some err) /\
      file p' = file p /\
      BodyMarkdown p' = body /\
      BodyHtml p' = BodyHtml p /\
      GithubUrl p' = GithubUrl p /\
      ParentFolder p' = ParentFolder p.
Proof.
  intros p body err Hread.
  unfold PopulateAllProperties, getTitle.
  destruct (split_on_first "." (filepath_Base (OutputPath (file p))))
    as (e & es & ->).
  cbn [nth_error]. unfold getSanitizedMarkdownBody, set_Title.
  cbn [file FullInputPath]. rewrite Hread.
  eexists. split; [reflexivity|]. repeat split.
Qed.

(** X15.  For a page that is not under a package and whose source is read,
    [PopulateAllProperties] returns a nil error: the markdown body is the
    source as read, the HTML body is its rendering, and the GitHub URL is
    the link [./] itself, that is no URL.  The paths of the page are
    kept. *)
Theorem X15_populate_outside_packages : forall (p : Page Folder) body,
    isPackageInputPath (InputPath (file p)) = false ->
    file_ReadFile (FullInputPath (file p)) = Returns body None ->
    exists p',
      PopulateAllProperties file_ReadFile github_flavored_markdown_Markdown
                            strings_Title p
      = Returns p' None /\
      file p' = file p /\
      BodyMarkdown p' = body /\
      BodyHtml p' = github_flavored_markdown_Markdown body /\
      GithubUrl p' = str "./" /\
      ParentFolder p' = ParentFolder p.
Proof.
  intros p body Hpkg Hread.
  unfold PopulateAllProperties, getTitle.
  destruct (split_on_first "." (filepath_Base (OutputPath (file p))))
    as (e & es & ->).
  cbn [nth_error]. unfold getSanitizedMarkdownBody, set_Title.
  cbn [file FullInputPath InputPath]. rewrite Hread.
  rewrite (convertMarkdownLinksToUrls_outside_packages _ body Hpkg).
  unfold set_BodyHtml, set_BodyMarkdown. cbn [file InputPath BodyMarkdown].
  unfold convertPackageLinkToUrl. rewrite Hpkg.
  eexists. split; [reflexivity|]. repeat split.
Qed.

(** X16.  Whatever [WriteFullPageHtmlToOutputPath] returns, it has either
    done nothing and returns an error, or it has printed one line and
    called [WriteFile] once, on a path that ends in [.html], and returns
    what [WriteFile] returned. *)
Theorem X16_only_html_files_are_written :
  forall p rootFolder rootOutputPath events err,
    WriteFullPageHtmlToOutputPath
      file_ReadFile file_WriteFile template_Parse template_Execute
      GetAsNavTreeHtml p rootFolder rootOutputPath
    = Returns events err ->
    (events = [] /\ err <> None) \/
    (exists line fullHtml stem,
        events = [Printed line; WriteFileCalled fullHtml (stem ++ str ".html")] /\
        err = file_WriteFile fullHtml (stem ++ str ".html")).
Proof.
  intros p rootFolder rootOutputPath events err.
  unfold WriteFullPageHtmlToOutputPath.
  destruct (getFullHtml _ _ _ _ _ _) as [fullHtml [e|]|]; cbn [try_call];
    [intros H; injection H as <- <-; left; split; [reflexivity|discriminate]
    | |discriminate].
  destruct (replaceMd_cases
              (filepath_Join [rootOutputPath; OutputPath (file p)]))
    as [(dir & name & Hmd & ->)|[_ ->]]; cbn [try_call].
  - destruct Hmd as (-> & _ & Hname).
    rewrite (strings_Replace_md_path dir name Hname).
    rewrite (app_assoc _ name (str ".html")).
    intros H. right.
    destruct (file_WriteFile fullHtml _) as [e|] eqn:Ew;
      injection H as <- <-; do 3 eexists;
      (split; [reflexivity|]); symmetry; exact Ew.
  - intros H. injection H as <- <-. left. split; [reflexivity|discriminate].
Qed.

(** X17.  When the template [_html/doc_template.html] cannot be read, or
    is read and cannot be parsed, [WriteFullPageHtmlToOutputPath] returns
    that error and has neither printed nor written anything. *)
Theorem X17_template_failure_stops_the_write :
  forall p rootFolder rootOutputPath err,
    (exists body,
        file_ReadFile (str "_html/doc_template.html")
        = Returns body (Some err)) \/
    (exists body tpl,
        file_ReadFile (str "_html/doc_template.html") = Returns body None /\
        template_Parse (Title p) body = Returns tpl (Some err)) ->
    WriteFullPageHtmlToOutputPath
      file_ReadFile file_WriteFile template_Parse template_Execute
      GetAsNavTreeHtml p rootFolder rootOutputPath
    = Returns [] (Some err).
Proof.
  intros p rootFolder rootOutputPath err H.
  unfold WriteFullPageHtmlToOutputPath, getFullHtml.
  change (filepath_Join [HTML_TEMPLATE_REL_PATH])
    with (str "_html/doc_template.html").
  destruct H as [(body & ->)|(body & tpl & -> & Hp)]; cbn [try_call].
  - reflexivity.
  - rewrite Hp. reflexivity.
Qed.

End PageMethods.


Lemma X14_witness :
  exists p',
    PopulateAllProperties failing_ReadFile (fun md => md) (fun t => t)
      (example_page (str "packages/module-vpc/vpc-app/example.md"))
    = Returns p' (Some (CollaboratorError (str "no such file"))) /\
    GithubUrl p' = [].
Proof.
  destruct (X14_populate_returns_read_error
              unit failing_ReadFile (fun md => md) (fun t => t)
              (example_page (str "packages/module-vpc/vpc-app/example.md"))
              [] (CollaboratorError (str "no such file")) eq_refl)
    as (p' & Hp & _ & _ & _ & Hurl & _).
  exists p'. split; [exact Hp|exact Hurl].
Defined.


Lemma X15_witness :
  isPackageInputPath (InputPath (file global_page)) = false /\
  exists p',
    PopulateAllProperties example_ReadFile (fun md => md) (fun t => t)
                          global_page
    = Returns p' None /\
    GithubUrl p' = str "./".
Proof.
  split; [reflexivity|].
  destruct (X15_populate_outside_packages
              unit example_ReadFile (fun md => md) (fun t => t)
              global_page (str "<html/>") eq_refl eq_refl)
    as (p' & Hp & _ & _ & _ & Hurl & _).
  exists p'. split; [exact Hp|exact Hurl].
Defined.

Lemma X16_witness :
  WriteFullPageHtmlToOutputPath
    example_ReadFile example_WriteFile example_Parse example_Execute
    example_NavTree global_page tt (str "out")
  = Returns
      [Printed (str "Outputting global/help/support.md to out/help/support.html"
                ++ ["010"%char]);
       WriteFileCalled (str "<html/>") (str "out/help/support.html")]
      None /\
  exists line fullHtml stem,
    [Printed (str "Outputting global/help/support.md to out/help/support.html"
              ++ ["010"%char]);
     WriteFileCalled (str "<html/>") (str "out/help/support.html")]
    = [Printed line; WriteFileCalled fullHtml (stem ++ str ".html")].
Proof.
  assert (H : WriteFullPageHtmlToOutputPath
                example_ReadFile example_WriteFile example_Parse
                example_Execute example_NavTree global_page tt (str "out")
              = Returns
                  [Printed (str "Outputting global/help/support.md to out/help/support.html"
                            ++ ["010"%char]);
                   WriteFileCalled (str "<html/>") (str "out/help/support.html")]
                  None) by (vm_compute; reflexivity).
  split; [exact H|].
  destruct (X16_only_html_files_are_written
              unit example_ReadFile example_WriteFile gostring
              example_Parse example_Execute example_NavTree
              global_page tt (str "out") _ _ H)
    as [[Hnil _]|(line & fullHtml & stem & Hev & _)].
  - discriminate Hnil.
  - exists line, fullHtml, stem. exact Hev.
Defined.

Lemma X17_witness :
  WriteFullPageHtmlToOutputPath
    failing_ReadFile example_WriteFile example_Parse example_Execute
    example_NavTree global_page tt (str "out")
  = Returns [] (Some (CollaboratorError (str "no such file"))).
Proof.
  apply (X17_template_failure_stops_the_write
           unit failing_ReadFile example_WriteFile gostring
           example_Parse example_Execute example_NavTree
           global_page tt (str "out")).
  left. exists []. reflexivity.
Defined.
